(** * DataSync: a shallow embedding of [datasync.go]

    The program mirrors a local directory tree onto an FTP server or a
    mounted SMB share, uploading the files whose local modification time
    is newer than the remote one.  This development embeds the program
    function by function and states its properties as theorems.

    External collaborators (the Go standard library, the FTP client
    library, the operating system) are modelled by small executable
    definitions or taken as oracles; every such choice is documented at
    the definition. *)

From Stdlib Require Import ZArith Lia Bool List Ascii String.
From stdpp Require Import gmap strings.
Import ListNotations.

Local Open Scope string_scope.
Local Open Scope list_scope.

(* ===================================================================== *)
(** * Go values used by the program                                        *)
(* ===================================================================== *)

(** ** [time.Time]

    A [time.Time] is a wall-clock instant: seconds since January 1 of
    year 1, 00:00:00 UTC, and nanoseconds within the second.  File
    modification times and FTP listing times never carry a monotonic
    clock reading, so that part of Go's representation is left out. *)
Module time.

Record Time := mkTime { sec : Z; nsec : Z }.

(** [time.Time{}], the zero value. *)
Definition zero : Time := mkTime 0 0.

(** [func (t Time) IsZero() bool { return t.sec() == 0 && t.nsec() == 0 }] *)
Definition IsZero (t : Time) : bool :=
  (sec t =? 0)%Z && (nsec t =? 0)%Z.

(** [func (t Time) After(u Time) bool]:
    [ts > us || ts == us && t.nsec() > u.nsec()]. *)
Definition After (t u : Time) : bool :=
  (sec t >? sec u)%Z || ((sec t =? sec u)%Z && (nsec t >? nsec u)%Z).

(** The instant as a number of nanoseconds, and the validity of the
    nanosecond field; used only to state what "strictly after" means. *)
Definition instant (t : Time) : Z := (sec t * 1000000000 + nsec t)%Z.
Definition wf (t : Time) : Prop := (0 <= nsec t < 1000000000)%Z.

(** [u] is strictly before [t]. *)
Definition lt (u t : Time) : Prop :=
  (sec u < sec t \/ (sec u = sec t /\ nsec u < nsec t))%Z.

(** [u] is before or at [t]. *)
Definition le (u t : Time) : Prop :=
  (sec u < sec t \/ (sec u = sec t /\ nsec u <= nsec t))%Z.

End time.

Abbreviation Time := time.Time.

(** ** [error]

    The error values the program can meet, with the wrapping structure
    that [errors.Is] inspects. *)
Inductive errno := ENOENT | EEXIST | EACCES | ENOTDIR | EIO.

Inductive error :=
| ErrNotExist                                   (* the sentinel os.ErrNotExist *)
| Errno (n : errno)                             (* syscall.Errno *)
| PathError (op path : string) (err : error)    (* *fs.PathError, wraps err *)
| LinkError (op old new : string) (err : error) (* *os.LinkError, wraps err *)
| ProtoError (code : nat) (msg : string)        (* *textproto.Error of the FTP client *)
| ErrorString (msg : string).                   (* errors.New / fmt.Errorf *)

(** [errors.Is(err, os.ErrNotExist)]: unwraps [err]; a [syscall.Errno]
    matches through its [Is] method when it is [ENOENT]. *)
Fixpoint is_not_exist (e : error) : bool :=
  match e with
  | ErrNotExist => true
  | Errno ENOENT => true
  | Errno _ => false
  | PathError _ _ e' => is_not_exist e'
  | LinkError _ _ _ e' => is_not_exist e'
  | ProtoError _ _ => false
  | ErrorString _ => false
  end.

(* ===================================================================== *)
(** * [strings] and [path/filepath]                                        *)
(* ===================================================================== *)

Module strings.

Definition chars (s : string) : list ascii := list_ascii_of_string s.
Definition str (l : list ascii) : string := string_of_list_ascii l.

(** Fields of [l] between the characters satisfying [p]; [n]
    separators give [n + 1] fields, as [strings.Split] does for a
    one-character separator. *)
Fixpoint fields (p : ascii -> bool) (l : list ascii) : list (list ascii) :=
  match l with
  | [] => [[]]
  | c :: l' =>
      if p c then [] :: fields p l'
      else match fields p l' with
           | f :: fs => (c :: f) :: fs
           | [] => [[c]]
           end
  end.

(** [strings.Split(s, sep)] for a separator of one character. *)
Definition Split (s : string) (sep : ascii) : list string :=
  map str (fields (Ascii.eqb sep) (chars s)).

Definition lower (c : ascii) : ascii :=
  let n := nat_of_ascii c in
  if (65 <=? n)%nat && (n <=? 90)%nat then ascii_of_nat (n + 32) else c.

(** [strings.ToLower] on ASCII text. *)
Definition ToLower (s : string) : string := str (map lower (chars s)).

End strings.

Inductive GOOS := windows | linux.

(** [path/filepath], for the host operating system [os].

    Modelled from the documented behaviour of Go's [path/filepath]:
    [Clean] works on the path elements, which is what Go's in-place
    buffer algorithm computes.  On Windows a drive letter ([Z:]) is the
    only volume name modelled; UNC volume names do not occur in the
    paths the program builds. *)
Module filepath.
Import strings.

Section Host.
Variable os : GOOS.

Definition Separator : ascii :=
  match os with windows => "\"%char | linux => "/"%char end.

Definition IsPathSeparator (c : ascii) : bool :=
  match os with
  | windows => Ascii.eqb c "\"%char || Ascii.eqb c "/"%char
  | linux => Ascii.eqb c "/"%char
  end.

Definition replace (a b : ascii) (l : list ascii) : list ascii :=
  map (fun c => if Ascii.eqb c a then b else c) l.

(** [ToSlash]: every [Separator] becomes a slash. *)
Definition ToSlash (path : string) : string :=
  if Ascii.eqb Separator "/"%char then path
  else str (replace Separator "/"%char (chars path)).

(** [FromSlash]: every slash becomes a [Separator]. *)
Definition FromSlash (path : string) : string :=
  if Ascii.eqb Separator "/"%char then path
  else str (replace "/"%char Separator (chars path)).

Definition is_letter (c : ascii) : bool :=
  let n := nat_of_ascii c in
  ((65 <=? n)%nat && (n <=? 90)%nat) || ((97 <=? n)%nat && (n <=? 122)%nat).

(** Length of the leading volume name. *)
Definition volumeNameLen (l : list ascii) : nat :=
  match os, l with
  | windows, c :: ":"%char :: _ => if is_letter c then 2 else 0
  | _, _ => 0
  end.

Definition dot : list ascii := ["."%char].
Definition dotdot : list ascii := ["."%char; "."%char].

Definition elem_eqb (a b : list ascii) : bool :=
  bool_decide (a = b).

(** One element of the path against the elements kept so far (most
    recent first). *)
Definition clean_step (rooted : bool) (kept : list (list ascii))
    (e : list ascii) : list (list ascii) :=
  if elem_eqb e [] || elem_eqb e dot then kept
  else if elem_eqb e dotdot then
    match kept with
    | top :: rest =>
        if elem_eqb top dotdot then e :: kept else rest
    | [] => if rooted then [] else [e]
    end
  else e :: kept.

Fixpoint join_elems (es : list (list ascii)) : list ascii :=
  match es with
  | [] => []
  | [e] => e
  | e :: es' => e ++ Separator :: join_elems es'
  end.

Definition clean_chars (l : list ascii) : list ascii :=
  let v := volumeNameLen l in
  let vol := firstn v l in
  let path := skipn v l in
  match path with
  | [] => l ++ dot
  | c :: _ =>
      let rooted := IsPathSeparator c in
      let kept := fold_left (clean_step rooted) (fields IsPathSeparator path) [] in
      let body := join_elems (rev kept) in
      let out := if rooted then Separator :: body else body in
      vol ++ (match out with [] => dot | _ => out end)
  end.

(** [Clean]: the shortest equivalent path, with [Separator]s. *)
Definition Clean (path : string) : string :=
  FromSlash (str (clean_chars (chars path))).

Fixpoint strip_seps (l : list ascii) : list ascii :=
  match l with
  | c :: l' => if IsPathSeparator c then strip_seps l' else l
  | [] => []
  end.

(** [Join(a, b)]. *)
Definition Join (a b : string) : string :=
  match os with
  | linux =>
      if String.eqb a "" then
        if String.eqb b "" then "" else Clean b
      else Clean (a +:+ String Separator b)
  | windows =>
      let la := chars a in
      let lb := chars b in
      let joined :=
        match List.last (map Some la) None with
        | None => lb
        | Some c =>
            if IsPathSeparator c then la ++ strip_seps lb
            else if Ascii.eqb c ":"%char then la ++ lb
            else la ++ Separator :: lb
        end in
      match joined with
      | [] => ""
      | _ => Clean (str joined)
      end
  end.

(** The part of [l] up to and including its last separator. *)
Fixpoint upto_last_sep (l : list ascii) : list ascii :=
  match l with
  | [] => []
  | c :: l' =>
      match upto_last_sep l' with
      | [] => if IsPathSeparator c then [c] else []
      | r => c :: r
      end
  end.

(** [Dir]: all but the last element of the path, cleaned. *)
Definition Dir (path : string) : string :=
  let l := chars path in
  let v := volumeNameLen l in
  let vol := firstn v l in
  let rest := skipn v l in
  str vol +:+ Clean (str (upto_last_sep rest)).

Fixpoint strip_trailing_seps (l : list ascii) : list ascii :=
  match l with
  | [] => []
  | c :: l' =>
      match strip_trailing_seps l' with
      | [] => if IsPathSeparator c then [] else [c]
      | r => c :: r
      end
  end.

(** [Base]: the last element of the path. *)
Definition Base (path : string) : string :=
  match chars path with
  | [] => "."
  | l =>
      let l1 := strip_trailing_seps l in
      let l2 := skipn (volumeNameLen l1) l1 in
      match List.last (fields IsPathSeparator l2) [] with
      | [] => String Separator ""
      | e => str e
      end
  end.

End Host.

End filepath.

(** A Go result [(T, error)] whose value is meaningful only without error. *)
Inductive result (A : Type) :=
| Ok (a : A)
| Err (e : error).
Arguments Ok {A} a.
Arguments Err {A} e.

(* ===================================================================== *)
(** * The local file system                                                *)
(* ===================================================================== *)

(** What [os.Stat] and [os.Open] answer for the files of the local tree:
    the modification time of the [FileInfo], and the bytes read from the
    opened file.  The local tree is only read by the program. *)
Record LocalFS := {
  os_Stat : string -> result Time;
  os_Open : string -> result string
}.

(* ===================================================================== *)
(** * FTP target                                                           *)
(* ===================================================================== *)

Module ftp.

(** [ftp.Entry], with the fields the program reads. *)
Record Entry := { Name : string; EntryTime : Time }.

(** The server at the other end of the connection: any deterministic
    state machine answering the four commands the program sends. *)
Record Server (S : Type) := {
  srvList : string -> S -> result (list Entry) * S;
  srvMakeDir : string -> S -> option error * S;
  srvStor : string -> string -> S -> option error * S;
  srvQuit : S -> option error * S
}.
Arguments srvList {S}. Arguments srvMakeDir {S}.
Arguments srvStor {S}. Arguments srvQuit {S}.

(** The commands sent on a connection, with their arguments. *)
Inductive Command :=
| LIST (path : string)
| MKD (path : string) (reply : option error)
| STOR (path data : string) (reply : option error)
| QUIT.

(** [*ftp.ServerConn]: the server's state and the commands sent so far. *)
Record ServerConn (S : Type) := { srv : S; sent : list Command }.
Arguments srv {S}. Arguments sent {S}.

Section Conn.
Context {S : Type} (B : Server S).

Definition List (path : string) (c : ServerConn S)
  : result (list Entry) * ServerConn S :=
  let '(r, s) := srvList B path (srv c) in
  (r, {| srv := s; sent := sent c ++ [LIST path] |}).

Definition MakeDir (path : string) (c : ServerConn S)
  : option error * ServerConn S :=
  let '(r, s) := srvMakeDir B path (srv c) in
  (r, {| srv := s; sent := sent c ++ [MKD path r] |}).

Definition Stor (path data : string) (c : ServerConn S)
  : option error * ServerConn S :=
  let '(r, s) := srvStor B path data (srv c) in
  (r, {| srv := s; sent := sent c ++ [STOR path data r] |}).

Definition Quit (c : ServerConn S) : option error * ServerConn S :=
  let '(r, s) := srvQuit B (srv c) in
  (r, {| srv := s; sent := sent c ++ [QUIT] |}).
End Conn.

End ftp.

Record FTPConf := { ftpHost : string; ftpUser : string; ftpPass : string;
                    ftpRemotePath : string }.

(** [type ftpTarget struct { c *ftp.ServerConn; prefix string }] *)
Record ftpTarget (S : Type) := {
  c : ftp.ServerConn S;
  prefix : string
}.
Arguments c {S}. Arguments prefix {S}.

Section FTPTarget.
Variable os : GOOS.
Variable lfs : LocalFS.
Context {S : Type} (B : ftp.Server S).

(** [ftp.Dial(cfg.Host, ...)] and [conn.Login(user, pass)], as the
    network answers them. *)
Variable ftp_Dial : string -> result S.
Variable ftp_Login : string -> string -> S -> option error * S.

Definition connectFTP (cfg : FTPConf) : result (ftpTarget S) :=
  match ftp_Dial (ftpHost cfg) with
  | Err err => Err err
  | Ok conn =>
      match ftp_Login (ftpUser cfg) (ftpPass cfg) conn with
      | (Some err, _) => Err err
      | (None, conn') =>
          Ok {| c := {| ftp.srv := conn'; ftp.sent := [] |};
                prefix := ftpRemotePath cfg |}
      end
  end.

(** The [for _, e := range entries] loop of [mtime]. *)
Fixpoint find_entry (base : string) (entries : list ftp.Entry)
  : Time * option error :=
  match entries with
  | [] => (time.zero, Some ErrNotExist)
  | e :: rest =>
      if String.eqb (ftp.Name e) base then (ftp.EntryTime e, None)
      else find_entry base rest
  end.

Definition ftp_mtime (t : ftpTarget S) (rel : string)
  : (Time * option error) * ftpTarget S :=
  let remoteDir :=
    filepath.ToSlash os (filepath.Join os (prefix t) (filepath.Dir os rel)) in
  let '(entries, c1) := ftp.List B remoteDir (c t) in
  let t1 := {| c := c1; prefix := prefix t |} in
  match entries with
  | Err err => ((time.zero, Some err), t1)
  | Ok entries =>
      let base := filepath.Base os rel in
      (find_entry base entries, t1)
  end.

(** The [for _, d := range dirs] loop of [upload]: the result of
    every [MakeDir] is dropped. *)
Fixpoint make_dirs (dirs : list string) (p : string) (c : ftp.ServerConn S)
  : ftp.ServerConn S :=
  match dirs with
  | [] => c
  | d :: rest =>
      let p' := filepath.Join os p d in
      let '(_, c') := ftp.MakeDir B p' c in
      make_dirs rest p' c'
  end.

Definition ftp_upload (t : ftpTarget S) (local rel : string)
  : option error * ftpTarget S :=
  let remote := filepath.ToSlash os (filepath.Join os (prefix t) rel) in
  let dir := filepath.Dir os remote in
  let c1 :=
    if negb (String.eqb dir "") && negb (String.eqb dir ".") then
      make_dirs (strings.Split dir "/"%char) "" (c t)
    else c t in
  match os_Open lfs local with
  | Err err => (Some err, {| c := c1; prefix := prefix t |})
  | Ok src =>
      let '(r, c2) := ftp.Stor B remote src c1 in
      (r, {| c := c2; prefix := prefix t |})
  end.

Definition ftp_close (t : ftpTarget S) : ftpTarget S :=
  let '(_, c1) := ftp.Quit B (c t) in
  {| c := c1; prefix := prefix t |}.

End FTPTarget.

(* ===================================================================== *)
(** * SMB target (a share mounted on a drive letter)                       *)
(* ===================================================================== *)

Module smb.

(** A file of the mounted share. *)
Record File := { data : string; modtime : Time }.

(** The files of the share, by path.  Directories are not tracked:
    whether a call fails is decided by the fault oracle below, which
    covers every failure the real file system can answer with. *)
Abbreviation Disk := (gmap string File).

(** The failures of the share: for each system call and path, the
    error it fails with, if any.  A copy that fails stops after
    [n] bytes have reached the file. *)
Record Faults := {
  stat_fault : string -> option error;
  mkdirall_fault : string -> option error;
  create_fault : string -> option error;
  copy_fault : string -> option (nat * error);
  close_fault : string -> option error;
  rename_fault : string -> string -> option error
}.

Section Calls.
Variable F : Faults.
Variable now : Time.

(** [os.Stat(p)], reduced to the modification time. *)
Definition Stat (p : string) (d : Disk) : result Time :=
  match stat_fault F p with
  | Some err => Err err
  | None =>
      match d !! p with
      | Some f => Ok (modtime f)
      | None => Err (PathError "stat" p (Errno ENOENT))
      end
  end.

(** [os.MkdirAll(p, perm)]. *)
Definition MkdirAll (p : string) (d : Disk) : option error * Disk :=
  (mkdirall_fault F p, d).

(** [os.Create(p)]: the file exists and is empty afterwards. *)
Definition Create (p : string) (d : Disk) : option error * Disk :=
  match create_fault F p with
  | Some err => (Some err, d)
  | None => (None, <[p := {| data := ""; modtime := now |}]> d)
  end.

(** [io.Copy(out, src)] into the file created at [p]: all of [src],
    or the first [n] bytes when the copy fails. *)
Definition Copy (p : string) (src : string) (d : Disk) : option error * Disk :=
  match copy_fault F p with
  | Some (n, err) =>
      (Some err, <[p := {| data := String.substring 0 n src; modtime := now |}]> d)
  | None => (None, <[p := {| data := src; modtime := now |}]> d)
  end.

(** [out.Close()] on the file at [p]: the bytes a copy has reported
    written stay in the file, whatever [Close] answers. *)
Definition Close (p : string) (d : Disk) : option error * Disk :=
  (close_fault F p, d).

(** [os.Rename(old, new)]: atomic; on failure nothing has changed. *)
Definition Rename (old new : string) (d : Disk) : option error * Disk :=
  match rename_fault F old new with
  | Some err => (Some err, d)
  | None =>
      match d !! old with
      | Some f => (None, <[new := f]> (delete old d))
      | None => (Some (LinkError "rename" old new (Errno ENOENT)), d)
      end
  end.
End Calls.

End smb.

Record SMBConf := { smbHost : string; smbUser : string; smbPass : string;
                    smbShare : string; smbRemotePath : string }.

(** [type smbTarget struct { drive, unc, prefix string }] *)
Record smbTarget := { drive : string; unc : string; smb_prefix : string }.

Section SMBTarget.
Variable os : GOOS.
Variable lfs : LocalFS.
Variable F : smb.Faults.
Variable now : Time.

(** [exec.Command("net", args...).CombinedOutput()] as the system
    answers it: the output and the error. *)
Variable net : list string -> string * option error.

Fixpoint error_text (e : error) : string :=
  match e with
  | ErrNotExist => "file does not exist"
  | Errno ENOENT => "no such file or directory"
  | Errno EEXIST => "file exists"
  | Errno EACCES => "permission denied"
  | Errno ENOTDIR => "not a directory"
  | Errno EIO => "input/output error"
  | PathError op path e' => op +:+ " " +:+ path +:+ ": " +:+ error_text e'
  | LinkError op old new e' =>
      op +:+ " " +:+ old +:+ " " +:+ new +:+ ": " +:+ error_text e'
  | ProtoError _ msg => msg
  | ErrorString msg => msg
  end.

Definition connectSMB (cfg : SMBConf) : result smbTarget :=
  let host := hd "" (strings.Split (smbHost cfg) ":"%char) in
  let unc := "\\" +:+ host +:+ "\" +:+ smbShare cfg in
  let drive := "Z:" in
  match net ["use"; drive; unc; smbPass cfg; "/user:" +:+ smbUser cfg;
             "/persistent:no"] with
  | (out, Some err) =>
      Err (ErrorString ("net use: " +:+ error_text err +:+ " – " +:+ out))
  | (_, None) =>
      Ok {| drive := drive; unc := unc; smb_prefix := smbRemotePath cfg |}
  end.

Definition toRemote (t : smbTarget) (rel : string) : string :=
  let rel := if negb (String.eqb (smb_prefix t) "")
             then filepath.Join os (smb_prefix t) rel else rel in
  filepath.Join os (drive t) rel.

Definition smb_mtime (t : smbTarget) (rel : string) (d : smb.Disk)
  : (Time * option error) * smb.Disk :=
  match smb.Stat F (toRemote t rel) d with
  | Err err => ((time.zero, Some err), d)
  | Ok fi => ((fi, None), d)
  end.

Definition smb_upload (t : smbTarget) (local rel : string) (d : smb.Disk)
  : option error * smb.Disk :=
  let dst := toRemote t rel in
  let '(_, d0) := smb.MkdirAll F (filepath.Dir os dst) d in
  match os_Open lfs local with
  | Err err => (Some err, d0)
  | Ok src =>
      let tmp := dst +:+ ".tmp" in
      match smb.Create F now tmp d0 with
      | (Some err, d1) => (Some err, d1)
      | (None, d1) =>
          match smb.Copy F now tmp src d1 with
          | (Some err, d2) =>
              let '(_, d3) := smb.Close F tmp d2 in (Some err, d3)
          | (None, d2) =>
              let '(_, d3) := smb.Close F tmp d2 in smb.Rename F tmp dst d3
          end
      end
  end.

(** [net use Z: /delete /y]; its result is dropped. *)
Definition smb_close (t : smbTarget) (d : smb.Disk) : smb.Disk :=
  let '(_, _) := net ["use"; drive t; "/delete"; "/y"] in d.

End SMBTarget.

(* ===================================================================== *)
(** * Main sync logic                                                      *)
(* ===================================================================== *)

(** [func newer(local, remote time.Time) bool] *)
Definition newer (local remote : Time) : bool :=
  time.IsZero remote || time.After local remote.

Record Conf := {
  LocalDir : string;
  Type_ : string;
  SMB : SMBConf;
  FTP : FTPConf
}.

(** What a run does that can be observed from outside [main]: the calls
    through the three function values [getMTime], [putFile] and
    [closeFn] with what they returned, the lines printed on standard
    output, and the message of [log.Fatal]. *)
Inductive event :=
| GetMTime (rel : string) (remoteTime : Time) (err : option error)
| PutFile (path rel : string) (err : option error)
| Close
| Stdout (line : string)
| LogFatal (err : error).

(** How the process ends: [os.Exit(code)] (from [log.Fatal], or the
    return from [main] with code 0), or a run-time panic, which runs
    the deferred calls and then kills the process with status 2. *)
Inductive status :=
| Exited (code : Z)
| Panicked.

Definition exit_code (st : status) : Z :=
  match st with Exited code => code | Panicked => 2%Z end.

(** A computation that may panic instead of returning. *)
Inductive flow (A : Type) :=
| Return (a : A)
| Panic.
Arguments Return {A} a.
Arguments Panic {A}.

(** The three function values [main] selects in its [switch], over the
    state [St] of the session they share. *)
Record Target (St : Type) := {
  getMTime : string -> St -> (Time * option error) * St;
  putFile : string -> string -> St -> option error * St;
  closeFn : St -> St
}.
Arguments getMTime {St}. Arguments putFile {St}. Arguments closeFn {St}.

(** One call of the function given to [filepath.WalkDir]: the path, the
    [IsDir] of the entry and the error of the walk. *)
Record Visit := { path : string; d_IsDir : bool; walkErr : option error }.

Record Run (St : Type) := {
  final : St;
  events : list event;
  exit : status
}.
Arguments final {St}. Arguments events {St}. Arguments exit {St}.

Section Driver.
Variable os : GOOS.
Variable lfs : LocalFS.

(** [filepath.Rel(root, path)] as the library answers it. *)
Variable Rel : string -> string -> string * option error.

(** The calls [filepath.WalkDir(root, fn)] makes, in order, as long as
    [fn] returns [nil]: a file or directory entry, or the error of
    reading one.  [fn] never returns [SkipDir] or [SkipAll] here, so
    the first non-nil result ends the walk and is its result. *)
Variable tree : string -> list Visit.

Context {St : Type} (T : Target St).

(** The function literal given to [filepath.WalkDir]. *)
Definition walkFn (root : string) (v : Visit) (w : St * list event)
  : flow (option error) * (St * list event) :=
  match walkErr v with
  | Some err => (Return (Some err), w)
  | None =>
      if d_IsDir v then (Return None, w)
      else
        let rel := fst (Rel root (path v)) in
        let rel := filepath.ToSlash os rel in
        let localInfo := os_Stat lfs (path v) in
        let '((remoteTime, err), s1) := getMTime T rel (fst w) in
        let log1 := snd w ++ [GetMTime rel remoteTime err] in
        match localInfo with
        | Err _ => (Panic, (s1, log1))
        | Ok localTime =>
            if newer localTime remoteTime then
              let log2 := log1 ++ [Stdout ("↑ " +:+ rel)] in
              let '(err, s2) := putFile T (path v) rel s1 in
              (Return err, (s2, log2 ++ [PutFile (path v) rel err]))
            else (Return None, (s1, log1))
        end
  end.

Fixpoint walk (root : string) (vs : list Visit) (w : St * list event)
  : flow (option error) * (St * list event) :=
  match vs with
  | [] => (Return None, w)
  | v :: vs' =>
      match walkFn root v w with
      | (Return None, w') => walk root vs' w'
      | stop => stop
      end
  end.

Definition WalkDir (root : string) (w : St * list event)
  : flow (option error) * (St * list event) :=
  walk root (tree root) w.

(** [main] from [defer closeFn()] to its end. *)
Definition sync (root : string) (s : St) : Run St :=
  match WalkDir root (s, []) with
  | (Panic, (s', log)) =>
      (* the deferred call runs while the panic unwinds *)
      {| final := closeFn T s'; events := log ++ [Close]; exit := Panicked |}
  | (Return err, (s', log)) =>
      match err with
      | Some e =>
          if negb (is_not_exist e) then
            (* log.Fatal: os.Exit(1), deferred calls do not run *)
            {| final := s'; events := log ++ [LogFatal e]; exit := Exited 1 |}
          else
            {| final := closeFn T s';
               events := log ++ [Stdout "✓ Sync complete"; Close];
               exit := Exited 0 |}
      | None =>
          {| final := closeFn T s';
             events := log ++ [Stdout "✓ Sync complete"; Close];
             exit := Exited 0 |}
      end
  end.

End Driver.

(** The session at the end of a run. *)
Inductive Session (S : Type) :=
| NoSession
| FtpSession (t : ftpTarget S)
| SmbSession (d : smb.Disk).
Arguments NoSession {S}.
Arguments FtpSession {S} t.
Arguments SmbSession {S} d.

Section Main.
Variable os : GOOS.
Variable lfs : LocalFS.
Variable Rel : string -> string -> string * option error.
Variable tree : string -> list Visit.
Context {S : Type} (B : ftp.Server S).
Variable ftp_Dial : string -> result S.
Variable ftp_Login : string -> string -> S -> option error * S.
Variable F : smb.Faults.
Variable now : Time.
Variable net : list string -> string * option error.

(** The share as it is when [net use] has mounted it. *)
Variable share : smb.Disk.

(** [loadConf(p)] as the configuration file answers it. *)
Variable loadConf : string -> result Conf.

Definition ftpFns : Target (ftpTarget S) := {|
  getMTime := fun rel t => ftp_mtime os B t rel;
  putFile := fun local rel t => ftp_upload os lfs B t local rel;
  closeFn := ftp_close B
|}.

Definition smbFns (st : smbTarget) : Target smb.Disk := {|
  getMTime := fun rel d => smb_mtime os F st rel d;
  putFile := fun local rel d => smb_upload os lfs F now st local rel d;
  closeFn := smb_close net st
|}.

Definition fatal (err : error) : Run (Session S) :=
  {| final := NoSession; events := [LogFatal err]; exit := Exited 1 |}.

Definition in_session {A : Type} (f : A -> Session S) (r : Run A)
  : Run (Session S) :=
  {| final := f (final r); events := events r; exit := exit r |}.

(** [func main()]; [conf] is the value of the [-conf] flag, if given. *)
Definition main (conf : option string) : Run (Session S) :=
  let cfgPath := default "dataxfer.conf" conf in
  match loadConf cfgPath with
  | Err err => fatal err
  | Ok conf =>
      let ty := strings.ToLower (Type_ conf) in
      if String.eqb ty "ftp" then
        match connectFTP ftp_Dial ftp_Login (FTP conf) with
        | Err err => fatal err
        | Ok ft =>
            in_session FtpSession
              (sync os lfs Rel tree ftpFns (LocalDir conf) ft)
        end
      else if String.eqb ty "smb" then
        match connectSMB net (SMB conf) with
        | Err err => fatal err
        | Ok st =>
            in_session SmbSession
              (sync os lfs Rel tree (smbFns st) (LocalDir conf) share)
        end
      else
        fatal (ErrorString ("unknown type: " +:+ Type_ conf
                            +:+ " (use 'ftp' or 'smb')"))
  end.

End Main.

(* ===================================================================== *)
(** * Concrete hosts, servers and trees                                    *)
(* ===================================================================== *)

(** Small worlds on which the program is run by evaluation. *)
Module fixtures.

(** A server that answers from fixed tables and keeps what it stored. *)
Definition scripted (listing : string -> result (list ftp.Entry))
    (mkd stor : string -> option error) : ftp.Server (list (string * string)) :=
  {| ftp.srvList := fun p s => (listing p, s);
     ftp.srvMakeDir := fun p s => (mkd p, s);
     ftp.srvStor := fun p data s =>
       match stor p with
       | Some err => (Some err, s)
       | None => (None, s ++ [(p, data)])
       end;
     ftp.srvQuit := fun s => (None, s) |}.

Definition at_second (n : Z) : Time := time.mkTime n 0.

Fixpoint assoc {A : Type} (k : string) (l : list (string * A)) : option A :=
  match l with
  | [] => None
  | (k', a) :: l' => if String.eqb k k' then Some a else assoc k l'
  end.

(** A local tree given by its files: path, modification time, content. *)
Definition local_files (fs : list (string * (Time * string))) : LocalFS :=
  {| os_Stat := fun p =>
       match assoc p fs with
       | Some (t, _) => Ok t
       | None => Err (PathError "stat" p (Errno ENOENT))
       end;
     os_Open := fun p =>
       match assoc p fs with
       | Some (_, content) => Ok content
       | None => Err (PathError "open" p (Errno ENOENT))
       end |}.

(** The same tree when the file [gone] is removed after the program has
    read its modification time and before it opens it. *)
Definition removed_before_open (gone : string) (l : LocalFS) : LocalFS :=
  {| os_Stat := os_Stat l;
     os_Open := fun p =>
       if String.eqb p gone then Err (PathError "open" p (Errno ENOENT))
       else os_Open l p |}.

(** The same tree when the file [gone] is removed after the walk has
    listed it and before the program reads its modification time. *)
Definition removed_before_stat (gone : string) (l : LocalFS) : LocalFS :=
  {| os_Stat := fun p =>
       if String.eqb p gone then Err (PathError "stat" p (Errno ENOENT))
       else os_Stat l p;
     os_Open := os_Open l |}.

(** [filepath.Rel] for a path below the root. *)
Definition rel_below (root p : string) : string * option error :=
  if String.eqb root p then (".", None)
  else (String.substring (S (String.length root))
          (String.length p - S (String.length root)) p, None).

Definition dir (p : string) : Visit :=
  {| path := p; d_IsDir := true; walkErr := None |}.
Definition file (p : string) : Visit :=
  {| path := p; d_IsDir := false; walkErr := None |}.

Definition no_listing (p : string) : result (list ftp.Entry) := Ok [].
Definition accept (p : string) : option error := None.
Definition denied (p : string) : option error :=
  Some (ProtoError 550 "Permission denied").

Definition dial_ok (host : string) : result (list (string * string)) := Ok [].
Definition login_ok (user pass : string) (s : list (string * string))
  : option error * list (string * string) := (None, s).

Definition no_faults : smb.Faults :=
  {| smb.stat_fault := fun _ => None;
     smb.mkdirall_fault := fun _ => None;
     smb.create_fault := fun _ => None;
     smb.copy_fault := fun _ => None;
     smb.close_fault := fun _ => None;
     smb.rename_fault := fun _ _ => None |}.

Definition net_ok (args : list string) : string * option error :=
  ("The command completed successfully.", None).

Definition ftp_conf (root : string) : Conf :=
  {| LocalDir := root; Type_ := "FTP";
     SMB := {| smbHost := ""; smbUser := ""; smbPass := ""; smbShare := "";
               smbRemotePath := "" |};
     FTP := {| ftpHost := "nas:21"; ftpUser := "sync"; ftpPass := "secret";
               ftpRemotePath := "" |} |}.

Definition smb_conf (root : string) : Conf :=
  {| LocalDir := root; Type_ := "smb";
     SMB := {| smbHost := "nas:445"; smbUser := "sync"; smbPass := "secret";
               smbShare := "backup"; smbRemotePath := "" |};
     FTP := {| ftpHost := ""; ftpUser := ""; ftpPass := "";
               ftpRemotePath := "" |} |}.

(** A run of [main] against a scripted FTP server. *)
Definition run_ftp (os : GOOS) (lfs : LocalFS) (root : string)
    (visits : list Visit) (B : ftp.Server (list (string * string)))
  : Run (Session (list (string * string))) :=
  main os lfs rel_below (fun _ => visits) B dial_ok login_ok
       no_faults (at_second 0) net_ok ∅ (fun _ => Ok (ftp_conf root)) None.

(** A run of [main] against a mounted share. *)
Definition run_smb (os : GOOS) (lfs : LocalFS) (root : string)
    (visits : list Visit) (F : smb.Faults) (share : smb.Disk)
  : Run (Session (list (string * string))) :=
  main os lfs rel_below (fun _ => visits) (scripted no_listing accept accept)
       dial_ok login_ok F (at_second 500) net_ok share
       (fun _ => Ok (smb_conf root)) None.

(** The commands a run has sent to the FTP server. *)
Definition commands {S : Type} (r : Run (Session S)) : list ftp.Command :=
  match final r with
  | FtpSession t => ftp.sent (c t)
  | _ => []
  end.

Definition one_file : list (string * (Time * string)) :=
  [("C:\data\a.txt", (at_second 100, "alpha"))].

Definition one_file_tree : list Visit :=
  [dir "C:\data"; file "C:\data\a.txt"].

Definition two_files : list (string * (Time * string)) :=
  [("C:\data\a.txt", (at_second 100, "alpha"));
   ("C:\data\b.txt", (at_second 100, "beta"))].

Definition two_files_tree : list Visit :=
  [dir "C:\data"; file "C:\data\a.txt"; file "C:\data\b.txt"].

Definition nested : list (string * (Time * string)) :=
  [("C:\data\a\b\c.txt", (at_second 50, "gamma"))].

Definition nested_tree : list Visit :=
  [dir "C:\data"; dir "C:\data\a"; dir "C:\data\a\b";
   file "C:\data\a\b\c.txt"].

Definition nested_posix : list (string * (Time * string)) :=
  [("/data/a/b/c.txt", (at_second 50, "gamma"))].

Definition nested_posix_tree : list Visit :=
  [dir "/data"; dir "/data/a"; dir "/data/a/b"; file "/data/a/b/c.txt"].

(** A session on a scripted server, as [connectFTP] returns it. *)
Definition fresh_session : ftpTarget (list (string * string)) :=
  {| c := {| ftp.srv := []; ftp.sent := [] |}; prefix := "" |}.

(** The part of [main] after the connection, on a scripted server. *)
Definition sync_ftp (os : GOOS) (lfs : LocalFS) (root : string)
    (visits : list Visit) (B : ftp.Server (list (string * string)))
  : Run (ftpTarget (list (string * string))) :=
  sync os lfs rel_below (fun _ => visits) (ftpFns os lfs B) root fresh_session.

(** A server directory holding [b.txt], last modified at second 200. *)
Definition listing_b (p : string) : result (list ftp.Entry) :=
  Ok [ {| ftp.Name := "b.txt"; ftp.EntryTime := at_second 200 |} ].

(** The walk of [sync_ftp], alone. *)
Definition walk_ftp (os : GOOS) (lfs : LocalFS) (root : string)
    (visits : list Visit) (B : ftp.Server (list (string * string))) :=
  WalkDir os lfs rel_below (fun _ => visits) (ftpFns os lfs B) root
          (fresh_session, []).

(** The share when the account may not create directories: every
    [MkdirAll] is refused, and a file cannot be created in a directory
    that is not there. *)
Definition no_directories : smb.Faults :=
  {| smb.stat_fault := fun _ => None;
     smb.mkdirall_fault := fun p => Some (PathError "mkdir" p (Errno EACCES));
     smb.create_fault := fun p => Some (PathError "open" p (Errno ENOENT));
     smb.copy_fault := fun _ => None;
     smb.close_fault := fun _ => None;
     smb.rename_fault := fun _ _ => None |}.

(** The share when the connection drops after two bytes of a copy. *)
Definition drops_after_two : smb.Faults :=
  {| smb.stat_fault := fun _ => None;
     smb.mkdirall_fault := fun _ => None;
     smb.create_fault := fun _ => None;
     smb.copy_fault := fun _ => Some (2, Errno EIO);
     smb.close_fault := fun _ => None;
     smb.rename_fault := fun _ _ => None |}.

Definition mounted : smbTarget :=
  {| drive := "Z:"; unc := "\\nas\backup"; smb_prefix := "" |}.

(** A share that already holds an older [a.txt]. *)
Definition old_share : smb.Disk :=
  {[ "Z:a.txt" := {| smb.data := "previous"; smb.modtime := at_second 10 |} ]}.

(** A root directory that is not there: the one call of the walk
    function carries the error of the [Lstat] of the root. *)
Definition missing_root_tree : list Visit :=
  [ {| path := "C:\nowhere"; d_IsDir := false;
       walkErr := Some (PathError "CreateFile" "C:\nowhere" (Errno ENOENT)) |} ].

End fixtures.

(* ===================================================================== *)
(** * Observations on a run                                                *)
(* ===================================================================== *)

Definition is_lookup (e : event) : bool :=
  match e with GetMTime _ _ _ => true | _ => false end.

Definition is_upload (e : event) : bool :=
  match e with PutFile _ _ _ => true | _ => false end.

Definition is_close (e : event) : bool :=
  match e with Close => true | _ => false end.

(** A progress line of [main]: an arrow, a space, the relative path. *)
Definition progress (rel : string) : event := Stdout ("↑ " +:+ rel).

Definition is_progress (e : event) : bool :=
  match e with Stdout line => String.prefix "↑ " line | _ => false end.

Definition completion : event := Stdout "✓ Sync complete".

Definition count (p : event -> bool) (l : list event) : nat :=
  length (List.filter p l).

(** The entries for which the walk function goes past its first line:
    regular files read without error. *)
Definition regular (v : Visit) : bool :=
  match walkErr v with
  | Some _ => false
  | None => negb (d_IsDir v)
  end.

Section Traces.
Variable os : GOOS.
Variable lfs : LocalFS.
Variable Rel : string -> string -> string * option error.

(** The relative path [main] hands to the target for an entry. *)
Definition rel_of (root : string) (v : Visit) : string :=
  filepath.ToSlash os (fst (Rel root (path v))).

(** The shapes a walk can take: its entries, its result and the events
    it leaves, entry by entry. *)
Inductive walk_trace (root : string)
  : list Visit -> flow (option error) -> list event -> Prop :=
| wt_end :
    walk_trace root [] (Return None) []
| wt_walk_error v vs err :
    walkErr v = Some err ->
    walk_trace root (v :: vs) (Return (Some err)) []
| wt_directory v vs r evs :
    walkErr v = None -> d_IsDir v = true ->
    walk_trace root vs r evs ->
    walk_trace root (v :: vs) r evs
| wt_panic v vs t err e :
    regular v = true -> os_Stat lfs (path v) = Err e ->
    walk_trace root (v :: vs) Panic [GetMTime (rel_of root v) t err]
| wt_up_to_date v vs localTime t err r evs :
    regular v = true -> os_Stat lfs (path v) = Ok localTime ->
    newer localTime t = false ->
    walk_trace root vs r evs ->
    walk_trace root (v :: vs) r (GetMTime (rel_of root v) t err :: evs)
| wt_uploaded v vs localTime t err r evs :
    regular v = true -> os_Stat lfs (path v) = Ok localTime ->
    newer localTime t = true ->
    walk_trace root vs r evs ->
    walk_trace root (v :: vs) r
      (GetMTime (rel_of root v) t err :: progress (rel_of root v)
         :: PutFile (path v) (rel_of root v) None :: evs)
| wt_upload_failed v vs localTime t err e :
    regular v = true -> os_Stat lfs (path v) = Ok localTime ->
    newer localTime t = true ->
    walk_trace root (v :: vs) (Return (Some e))
      [GetMTime (rel_of root v) t err; progress (rel_of root v);
       PutFile (path v) (rel_of root v) (Some e)].

(** The events of one regular file in a walk that ran to its end. *)
Definition file_events (root : string) (v : Visit) (evs : list event) : Prop :=
  exists t err,
    evs = [GetMTime (rel_of root v) t err] \/
    evs = [GetMTime (rel_of root v) t err; progress (rel_of root v);
           PutFile (path v) (rel_of root v) None].

End Traces.

(** How [main] ends after the walk has returned [r]: the events that
    follow those of the walk, and the status of the process. *)
Definition ending (r : flow (option error)) : list event * status :=
  match r with
  | Panic => ([Close], Panicked)
  | Return (Some e) =>
      if is_not_exist e then ([completion; Close], Exited 0)
      else ([LogFatal e], Exited 1)
  | Return None => ([completion; Close], Exited 0)
  end.

(* ===================================================================== *)
(** * Variations of the remote side                                        *)
(* ===================================================================== *)

(** The server [B] answering [MakeDir] with the replies [f] instead of
    its own, and otherwise behaving as [B] does. *)
Definition with_mkdir_replies {S : Type} (B : ftp.Server S)
    (f : string -> S -> option error) : ftp.Server S :=
  {| ftp.srvList := ftp.srvList B;
     ftp.srvMakeDir := fun p s => (f p s, snd (ftp.srvMakeDir B p s));
     ftp.srvStor := ftp.srvStor B;
     ftp.srvQuit := ftp.srvQuit B |}.

(** The share [F] with the failures [f] of [MkdirAll] instead of its own. *)
Definition with_mkdirall_faults (F : smb.Faults) (f : string -> option error)
  : smb.Faults :=
  {| smb.stat_fault := smb.stat_fault F;
     smb.mkdirall_fault := f;
     smb.create_fault := smb.create_fault F;
     smb.copy_fault := smb.copy_fault F;
     smb.close_fault := smb.close_fault F;
     smb.rename_fault := smb.rename_fault F |}.

(** A path is slash-normalized for the host when it holds no separator
    of the host other than the slash. *)
Definition slash_normalized (os : GOOS) (p : string) : Prop :=
  forall ch, In ch (strings.chars p) ->
             ch = filepath.Separator os -> ch = "/"%char.

(** The relative path an event hands to the target, if any. *)
Definition handed (e : event) : option string :=
  match e with
  | GetMTime rel _ _ => Some rel
  | PutFile _ rel _ => Some rel
  | _ => None
  end.

(* ===================================================================== *)
(** * Observations on the FTP connection                                   *)
(* ===================================================================== *)

Definition is_list (cmd : ftp.Command) : bool :=
  match cmd with ftp.LIST _ => true | _ => false end.

Definition is_mkd (cmd : ftp.Command) : bool :=
  match cmd with ftp.MKD _ _ => true | _ => false end.

Definition is_stor (cmd : ftp.Command) : bool :=
  match cmd with ftp.STOR _ _ _ => true | _ => false end.

Definition is_quit (cmd : ftp.Command) : bool :=
  match cmd with ftp.QUIT => true | _ => false end.

Definition sent_count (p : ftp.Command -> bool) (l : list ftp.Command) : nat :=
  length (List.filter p l).

(** The path of a listing or of a store is slash-normalized. *)
Definition wire_normalized (os : GOOS) (cmd : ftp.Command) : Prop :=
  match cmd with
  | ftp.LIST p => slash_normalized os p
  | ftp.STOR p _ _ => slash_normalized os p
  | _ => True
  end.

(* ===================================================================== *)
(** * The time comparator                                                  *)
(* ===================================================================== *)

Module time_facts.
Import time.

Lemma IsZero_spec (t : Time) : IsZero t = true <-> t = zero.
Proof.
  unfold IsZero, zero. destruct t as [s n]; simpl.
  rewrite andb_true_iff, !Z.eqb_eq. split.
  - intros [-> ->]. reflexivity.
  - intros H. injection H as -> ->. split; reflexivity.
Qed.

Lemma IsZero_false (t : Time) : IsZero t = false <-> t <> zero.
Proof.
  rewrite <- IsZero_spec. destruct (IsZero t); split; congruence.
Qed.

Lemma After_spec (t u : Time) : After t u = true <-> lt u t.
Proof.
  unfold After, lt.
  rewrite orb_true_iff, andb_true_iff, Z.eqb_eq, !Z.gtb_ltb, !Z.ltb_lt.
  intuition lia.
Qed.

Lemma After_false (t u : Time) : After t u = false <-> le t u.
Proof.
  unfold le. split.
  - intros H. destruct (Z.lt_total (sec t) (sec u)) as [Hs | [Hs | Hs]].
    + left; exact Hs.
    + right. split; [exact Hs |].
      destruct (Z_le_gt_dec (nsec t) (nsec u)) as [Hn | Hn]; [exact Hn |].
      assert (After t u = true) by (apply After_spec; unfold lt; lia).
      congruence.
    + assert (After t u = true) by (apply After_spec; unfold lt; lia).
      congruence.
  - intros H. destruct (After t u) eqn:E; [| reflexivity].
    apply After_spec in E. unfold lt in E. lia.
Qed.

Lemma lt_irrefl (t : Time) : ~ lt t t.
Proof. unfold lt. lia. Qed.

(** On valid times the order is the order of the instants. *)
Lemma lt_instant (u t : Time) :
  wf u -> wf t -> (lt u t <-> (instant u < instant t)%Z).
Proof. unfold wf, lt, instant. intros Hu Ht. split; intros H; nia. Qed.

End time_facts.

(** C3.  For all timestamps [local] and [remote], [newer local remote]
    is true if and only if [remote] is the absent (zero) value or
    [local] is strictly after [remote]; equal timestamps that are not
    absent give false. *)
Theorem newer_iff_absent_or_strictly_after :
  forall local remote : Time,
    (newer local remote = true <->
       remote = time.zero \/ time.lt remote local) /\
    (local = remote /\ remote <> time.zero -> newer local remote = false).
Proof.
  intros local remote. split.
  - unfold newer. rewrite orb_true_iff.
    rewrite time_facts.IsZero_spec, time_facts.After_spec. reflexivity.
  - intros [-> Hne]. unfold newer.
    apply time_facts.IsZero_false in Hne. rewrite Hne. simpl.
    apply time_facts.After_false. unfold time.le. lia.
Qed.

(* ===================================================================== *)
(** * The walk and its traces                                              *)
(* ===================================================================== *)

Section WalkFacts.
Variable os : GOOS.
Variable lfs : LocalFS.
Variable Rel : string -> string -> string * option error.
Context {St : Type} (T : Target St).

Local Abbreviation step := (walkFn os lfs Rel T).
Local Abbreviation walks := (walk os lfs Rel T).
Local Abbreviation trace := (walk_trace os lfs Rel).
Local Abbreviation relp := (rel_of os Rel).

Lemma regular_inv (v : Visit) :
  regular v = true -> walkErr v = None /\ d_IsDir v = false.
Proof.
  unfold regular. destruct (walkErr v); [discriminate |].
  destruct (d_IsDir v); [discriminate | auto].
Qed.

Lemma regular_intro (v : Visit) :
  walkErr v = None -> d_IsDir v = false -> regular v = true.
Proof. unfold regular. intros -> ->. reflexivity. Qed.

(** Every walk leaves a trace of one of the shapes of [walk_trace]. *)
Lemma walk_sound (root : string) (vs : list Visit) :
  forall w r w',
    walks root vs w = (r, w') ->
    exists evs, snd w' = snd w ++ evs /\ trace root vs r evs.
Proof.
  induction vs as [| v vs IH]; intros [s log] r [s' log'] Hw; simpl in Hw.
  - injection Hw as <- <- <-. exists []. split.
    + simpl. rewrite app_nil_r. reflexivity.
    + constructor.
  - unfold walkFn in Hw.
    destruct (walkErr v) as [e |] eqn:Ew.
    { injection Hw as <- <- <-. exists []. split.
      - simpl. rewrite app_nil_r. reflexivity.
      - apply wt_walk_error. exact Ew. }
    destruct (d_IsDir v) eqn:Ed.
    { apply IH in Hw as (evs & Hlog & Htr). exists evs. split; [exact Hlog |].
      apply wt_directory; assumption. }
    assert (Hreg : regular v = true) by (apply regular_intro; assumption).
    simpl in Hw. fold (relp root v) in Hw.
    destruct (getMTime T (relp root v) s) as [[t err] s1] eqn:Eg.
    destruct (os_Stat lfs (path v)) as [localTime | e] eqn:Es.
    + destruct (newer localTime t) eqn:En.
      * destruct (putFile T (path v) (relp root v) s1) as [[e |] s2] eqn:Ep.
        -- injection Hw as <- <- <-. eexists. split.
           ++ simpl. rewrite <- !app_assoc. simpl. reflexivity.
           ++ eapply wt_upload_failed; eassumption.
        -- apply IH in Hw as (evs & Hlog & Htr).
           exists (GetMTime (relp root v) t err :: progress (relp root v)
                     :: PutFile (path v) (relp root v) None :: evs).
           split.
           ++ rewrite Hlog. simpl. rewrite <- !app_assoc. reflexivity.
           ++ eapply wt_uploaded; eassumption.
      * apply IH in Hw as (evs & Hlog & Htr).
        exists (GetMTime (relp root v) t err :: evs). split.
        -- rewrite Hlog. simpl. rewrite <- !app_assoc. reflexivity.
        -- eapply wt_up_to_date; eassumption.
    + injection Hw as <- <- <-. eexists. split.
      * simpl. reflexivity.
      * eapply wt_panic; eassumption.
Qed.

Lemma count_app (p : event -> bool) (l1 l2 : list event) :
  count p (l1 ++ l2) = count p l1 + count p l2.
Proof. unfold count. rewrite List.filter_app, length_app. reflexivity. Qed.

(** The walk itself never releases the session. *)
Lemma trace_no_close (root : string) vs r evs :
  trace root vs r evs -> count is_close evs = 0.
Proof. induction 1; simpl; auto. Qed.

(** An upload that returned an error is the last event of the walk, and
    its error is the result of the walk. *)
Lemma trace_upload_error (root : string) vs r evs :
  trace root vs r evs ->
  forall p rl e,
    In (PutFile p rl (Some e)) evs ->
    r = Return (Some e) /\ exists pre, evs = pre ++ [PutFile p rl (Some e)].
Proof.
  induction 1 as [| v vs e1 Hw | v vs r evs Hw Hd Htr IH | v vs t err e1 Hr Hs
                 | v vs l t err r evs Hr Hs Hn Htr IH
                 | v vs l t err r evs Hr Hs Hn Htr IH | v vs l t err e0 Hr Hs Hn];
    intros p rl e Hin; simpl in Hin.
  - contradiction.
  - contradiction.
  - apply IH. exact Hin.
  - destruct Hin as [Hin | []]. discriminate Hin.
  - destruct Hin as [Hin | Hin]; [discriminate Hin |].
    destruct (IH _ _ _ Hin) as [-> [pre ->]]. split; [reflexivity |].
    exists (GetMTime (relp root v) t err :: pre). reflexivity.
  - unfold progress in Hin.
    destruct Hin as [Hin | [Hin | [Hin | Hin]]]; try discriminate Hin.
    destruct (IH _ _ _ Hin) as [-> [pre ->]]. split; [reflexivity |].
    exists (GetMTime (relp root v) t err :: progress (relp root v)
              :: PutFile (path v) (relp root v) None :: pre).
    reflexivity.
  - unfold progress in Hin.
    destruct Hin as [Hin | [Hin | [Hin | []]]]; try discriminate Hin.
    injection Hin as <- <- <-. split; [reflexivity |].
    exists [GetMTime (relp root v) t err; progress (relp root v)].
    reflexivity.
Qed.

(** A walk that ran to its end left, for each regular file in order,
    one lookup and at most one upload, and nothing else. *)
Lemma trace_completed (root : string) vs r evs :
  trace root vs r evs ->
  r = Return None ->
  exists per,
    evs = concat per /\
    Forall2 (fun v e => file_events os Rel root v e /\
                        forall localTime t err,
                          os_Stat lfs (path v) = Ok localTime ->
                          In (GetMTime (relp root v) t err) e ->
                          newer localTime t = false ->
                          e = [GetMTime (relp root v) t err])
            (List.filter regular vs) per.
Proof.
  induction 1 as [| v vs e1 Hw | v vs r evs Hw Hd Htr IH | v vs t err e1 Hr Hs
                 | v vs l t err r evs Hr Hs Hn Htr IH
                 | v vs l t err r evs Hr Hs Hn Htr IH | v vs l t err e0 Hr Hs Hn];
    intros Hret; try discriminate Hret.
  - exists []. split; [reflexivity | constructor].
  - destruct (IH Hret) as (per & -> & Hall). exists per. split; [reflexivity |].
    simpl. unfold regular at 1. rewrite Hw, Hd. simpl. exact Hall.
  - destruct (IH Hret) as (per & -> & Hall).
    exists ([GetMTime (relp root v) t err] :: per). split; [reflexivity |].
    simpl. rewrite Hr. constructor; [| exact Hall]. split.
    + exists t, err. left. reflexivity.
    + intros l' t' err' Hs' Hin Hn'.
      destruct Hin as [Hin | []]. injection Hin as <- <-. reflexivity.
  - destruct (IH Hret) as (per & -> & Hall).
    exists ([GetMTime (relp root v) t err; progress (relp root v);
             PutFile (path v) (relp root v) None] :: per).
    split; [reflexivity |].
    simpl. rewrite Hr. constructor; [| exact Hall]. split.
    + exists t, err. right. reflexivity.
    + intros l' t' err' Hs' Hin Hn'. unfold progress in Hin.
      destruct Hin as [Hin | [Hin | [Hin | []]]]; try discriminate Hin.
      injection Hin as <- <-. congruence.
Qed.

Variable tree : string -> list Visit.
Local Abbreviation run := (sync os lfs Rel tree T).

(** A run is a walk of one of the shapes above, followed by the ending
    its result selects. *)
Lemma sync_shape (root : string) (s : St) :
  exists r log,
    trace root (tree root) r log /\
    events (run root s) = log ++ fst (ending r) /\
    exit (run root s) = snd (ending r).
Proof.
  unfold sync, WalkDir.
  destruct (walk os lfs Rel T root (tree root) (s, [])) as [r [s' log]] eqn:Hw.
  apply walk_sound in Hw as (evs & Hlog & Htr). simpl in Hlog. subst log.
  exists r, evs. split; [exact Htr |].
  destruct r as [[e |] |]; simpl.
  - destruct (is_not_exist e); simpl; auto.
  - auto.
  - auto.
Qed.

End WalkFacts.

(* ===================================================================== *)
(** * The run: release of the session, upload errors, counts               *)
(* ===================================================================== *)

Section RunFacts.
Variable os : GOOS.
Variable lfs : LocalFS.
Variable Rel : string -> string -> string * option error.
Variable tree : string -> list Visit.
Context {St : Type} (T : Target St).

Local Abbreviation run := (sync os lfs Rel tree T).

(** The session is released once, except on the exit through
    [log.Fatal], where it is not released at all. *)
Lemma sync_close_count (root : string) (s : St) :
  count is_close (events (run root s)) =
  match exit (run root s) with
  | Exited 1 => 0
  | _ => 1
  end.
Proof.
  destruct (sync_shape os lfs Rel T tree root s) as (r & log & Htr & -> & ->).
  rewrite count_app, (trace_no_close _ _ _ _ _ _ _ Htr). simpl.
  destruct r as [[e |] |]; simpl; try reflexivity.
  destruct (is_not_exist e); reflexivity.
Qed.

(** In a run that went through the whole walk, the walk returned [nil]. *)
Lemma sync_walk_completed (root : string) (s : St) :
  fst (WalkDir os lfs Rel tree T root (s, [])) = Return None ->
  exists log,
    walk_trace os lfs Rel root (tree root) (Return None) log /\
    events (run root s) = log ++ [completion; Close] /\
    exit (run root s) = Exited 0.
Proof.
  intros Hret. unfold sync.
  destruct (WalkDir os lfs Rel tree T root (s, [])) as [r [s' log]] eqn:Hw.
  simpl in Hret. subst r.
  unfold WalkDir in Hw. apply walk_sound in Hw as (evs & Hlog & Htr).
  simpl in Hlog. subst log. exists evs. simpl. auto.
Qed.

End RunFacts.

(** C2 (as amended).  If an upload returns an error, the walk stops at
    that file: the failed upload is the last call on the target.  The
    run then ends through [log.Fatal] with status 1, unless the error
    is a not-exist error, in which case the run prints its completion
    line, releases the session and ends with status 0. *)
Theorem upload_error_stops_walk :
  forall os lfs Rel tree St (T : Target St) root (s : St) p rl e,
    In (PutFile p rl (Some e)) (events (sync os lfs Rel tree T root s)) ->
    exists pre,
      events (sync os lfs Rel tree T root s) =
        pre ++ PutFile p rl (Some e)
            :: (if is_not_exist e then [completion; Close] else [LogFatal e]) /\
      exit (sync os lfs Rel tree T root s) =
        (if is_not_exist e then Exited 0 else Exited 1).
Proof.
  intros os lfs Rel tree St T root s p rl e Hin.
  destruct (sync_shape os lfs Rel T tree root s) as (r & log & Htr & Hev & Hex).
  rewrite Hev in Hin. apply in_app_or in Hin as [Hin | Hin].
  - destruct (trace_upload_error _ _ _ _ _ _ _ Htr _ _ _ Hin) as [-> [pre ->]].
    exists pre. rewrite Hev, Hex. simpl.
    rewrite <- app_assoc. simpl.
    destruct (is_not_exist e); split; reflexivity.
  - exfalso. destruct r as [[e0 |] |]; simpl in Hin.
    + unfold completion in Hin.
      destruct (is_not_exist e0); simpl in Hin; intuition discriminate.
    + unfold completion in Hin. intuition discriminate.
    + intuition discriminate.
Qed.

(** The theorem on a run whose first upload the server refuses. *)
Lemma upload_error_stops_walk_witness :
  let r := fixtures.sync_ftp windows (fixtures.local_files fixtures.two_files)
             "C:\data" fixtures.two_files_tree
             (fixtures.scripted fixtures.no_listing fixtures.accept fixtures.denied) in
  In (PutFile "C:\data\a.txt" "a.txt" (Some (ProtoError 550 "Permission denied")))
     (events r) /\
  exists pre,
    events r =
      pre ++ [PutFile "C:\data\a.txt" "a.txt"
                (Some (ProtoError 550 "Permission denied"));
              LogFatal (ProtoError 550 "Permission denied")] /\
    exit r = Exited 1.
Proof.
  split.
  - vm_compute. auto.
  - apply (upload_error_stops_walk windows
             (fixtures.local_files fixtures.two_files) fixtures.rel_below
             (fun _ => fixtures.two_files_tree) _
             (ftpFns windows (fixtures.local_files fixtures.two_files)
                (fixtures.scripted fixtures.no_listing fixtures.accept
                   fixtures.denied))
             "C:\data" fixtures.fresh_session
             "C:\data\a.txt" "a.txt" (ProtoError 550 "Permission denied")).
    vm_compute. auto.
Defined.

(** C2 (as stated) fails: the file [a.txt] is removed after its
    modification time was read; its upload returns the error of
    [os.Open], a not-exist error, and the run ends with status 0 and
    its completion line, the file [b.txt] never looked at. *)
Lemma upload_error_tolerated :
  let r := fixtures.run_ftp windows
             (fixtures.removed_before_open "C:\data\a.txt"
                (fixtures.local_files fixtures.two_files))
             "C:\data" fixtures.two_files_tree
             (fixtures.scripted fixtures.no_listing fixtures.accept fixtures.accept) in
  In (PutFile "C:\data\a.txt" "a.txt"
        (Some (PathError "open" "C:\data\a.txt" (Errno ENOENT)))) (events r) /\
  exit r = Exited 0 /\
  exit_code (exit r) = 0%Z /\
  In completion (events r).
Proof. vm_compute. tauto. Qed.

(** C1 at its failing input: the session is established, the upload of
    [a.txt] is refused by the server, and the run ends through
    [log.Fatal] with status 1 without a call of the close function (no
    [QUIT] reaches the server). *)
Theorem fatal_upload_error_skips_close :
  let r := fixtures.run_ftp windows (fixtures.local_files fixtures.one_file)
             "C:\data" fixtures.one_file_tree
             (fixtures.scripted fixtures.no_listing fixtures.accept fixtures.denied) in
  (exists t, final r = FtpSession t) /\
  In (PutFile "C:\data\a.txt" "a.txt" (Some (ProtoError 550 "Permission denied")))
     (events r) /\
  exit r = Exited 1 /\
  count is_close (events r) = 0 /\
  ~ In ftp.QUIT (fixtures.commands r).
Proof.
  vm_compute. repeat split.
  - eexists. reflexivity.
  - tauto.
  - intros [H | [H | []]]; discriminate H.
Qed.

(* ===================================================================== *)
(** * Lookups, uploads and progress lines                                  *)
(* ===================================================================== *)

Lemma is_progress_progress (rel : string) : is_progress (progress rel) = true.
Proof.
  unfold is_progress, progress. simpl.
  repeat (destruct (Ascii.ascii_dec _ _) as [_ | Hne]; [| congruence]).
  destruct rel; reflexivity.
Qed.

Lemma completion_not_progress : is_progress completion = false.
Proof. reflexivity. Qed.

Lemma newer_false_of_le (localTime t : Time) :
  t <> time.zero -> time.le localTime t -> newer localTime t = false.
Proof.
  intros Hz Hle. unfold newer.
  apply time_facts.IsZero_false in Hz. rewrite Hz. simpl.
  apply time_facts.After_false. exact Hle.
Qed.

Section TraceCounts.
Variable os : GOOS.
Variable lfs : LocalFS.
Variable Rel : string -> string -> string * option error.

Local Abbreviation trace := (walk_trace os lfs Rel).
Local Abbreviation relp := (rel_of os Rel).

(** As many progress lines as uploads. *)
Lemma trace_progress_count (root : string) vs r evs :
  trace root vs r evs -> count is_progress evs = count is_upload evs.
Proof.
  assert (Hp : forall s : string, String.prefix "" ("" +:+ s) = true)
    by (intros s; simpl; destruct s; reflexivity).
  induction 1; unfold count in *; simpl; rewrite ?Hp; simpl; auto.
Qed.

(** Every upload comes right after its progress line. *)
Lemma trace_upload_announced (root : string) vs r evs :
  trace root vs r evs ->
  forall pre p rl e post,
    evs = pre ++ PutFile p rl e :: post ->
    exists pre', pre = pre' ++ [progress rl].
Proof.
  induction 1 as [| v vs e1 Hw | v vs r evs Hw Hd Htr IH | v vs t err e1 Hr Hs
                 | v vs l t err r evs Hr Hs Hn Htr IH
                 | v vs l t err r evs Hr Hs Hn Htr IH | v vs l t err e0 Hr Hs Hn];
    intros pre p rl e post Heq.
  - destruct pre; discriminate Heq.
  - destruct pre; discriminate Heq.
  - eapply IH. exact Heq.
  - destruct pre as [| x [| y pre]]; discriminate Heq.
  - destruct pre as [| x pre]; [discriminate Heq |].
    injection Heq as <- Heq. destruct (IH _ _ _ _ _ Heq) as [pre' ->].
    exists (GetMTime (relp root v) t err :: pre'). reflexivity.
  - destruct pre as [| x [| y [| z pre]]]; try discriminate Heq.
    + inversion Heq; subst. exists [GetMTime (relp root v) t err].
      reflexivity.
    + inversion Heq as [[Hx Hy Hz Heq']]. destruct (IH _ _ _ _ _ Heq') as [pre' ->].
      exists (GetMTime (relp root v) t err :: progress (relp root v)
                :: PutFile (path v) (relp root v) None :: pre').
      reflexivity.
  - destruct pre as [| x [| y [| z pre]]]; try discriminate Heq.
    + inversion Heq; subst. exists [GetMTime (relp root v) t err].
      reflexivity.
    + destruct pre; discriminate Heq.
Qed.

Lemma count_concat_one (p : event -> bool) (A : Type)
    (P : A -> list event -> Prop) (xs : list A) (per : list (list event)) :
  (forall x e, P x e -> count p e = 1) ->
  Forall2 P xs per -> count p (concat per) = length xs.
Proof.
  intros HP. induction 1 as [| x e xs per Hx Hall IH]; simpl.
  - reflexivity.
  - rewrite count_app, IH, (HP _ _ Hx). reflexivity.
Qed.

Lemma count_concat_at_most_one (p : event -> bool) (A : Type)
    (P : A -> list event -> Prop) (xs : list A) (per : list (list event)) :
  (forall x e, P x e -> count p e <= 1) ->
  Forall2 P xs per -> count p (concat per) <= length xs.
Proof.
  intros HP. induction 1 as [| x e xs per Hx Hall IH]; simpl.
  - reflexivity.
  - rewrite count_app. specialize (HP _ _ Hx). lia.
Qed.

End TraceCounts.

(** C8.  In a run that goes through its whole walk, every regular file
    of the tree accounts for exactly one call of the timestamp lookup
    and at most one call of the upload, and a file whose remote
    timestamp is present and not before its local timestamp accounts
    for no upload; over the [N] regular files the run makes [N]
    lookups and at most [N] uploads. *)
Theorem completed_walk_counts :
  forall os lfs Rel tree St (T : Target St) root (s : St),
    fst (WalkDir os lfs Rel tree T root (s, [])) = Return None ->
    exists per : list (list event),
      events (sync os lfs Rel tree T root s) =
        concat per ++ [completion; Close] /\
      Forall2 (fun v e =>
                 count is_lookup e = 1 /\ count is_upload e <= 1 /\
                 forall localTime t err,
                   os_Stat lfs (path v) = Ok localTime ->
                   In (GetMTime (rel_of os Rel root v) t err) e ->
                   t <> time.zero -> time.le localTime t ->
                   count is_upload e = 0)
              (List.filter regular (tree root)) per /\
      count is_lookup (events (sync os lfs Rel tree T root s)) =
        length (List.filter regular (tree root)) /\
      count is_upload (events (sync os lfs Rel tree T root s)) <=
        length (List.filter regular (tree root)).
Proof.
  intros os lfs Rel tree St T root s Hret.
  destruct (sync_walk_completed os lfs Rel tree T root s Hret)
    as (log & Htr & Hev & _).
  destruct (trace_completed os lfs Rel root _ _ _ Htr eq_refl)
    as (per & -> & Hall).
  exists per. split; [exact Hev |].
  assert (Hfiles :
    Forall2 (fun v e =>
               count is_lookup e = 1 /\ count is_upload e <= 1 /\
               forall localTime t err,
                 os_Stat lfs (path v) = Ok localTime ->
                 In (GetMTime (rel_of os Rel root v) t err) e ->
                 t <> time.zero -> time.le localTime t ->
                 count is_upload e = 0)
            (List.filter regular (tree root)) per).
  { clear Hev Htr Hret.
    induction Hall as [| v e vs per' [Hshape Hskip] Hall IH]; constructor.
    - destruct Hshape as (t0 & err0 & [-> | ->]);
        (split; [reflexivity | split; [unfold count; simpl; lia |]]).
      + reflexivity.
      + intros localTime t err Hs Hin Hz Hle.
        assert (Hn := newer_false_of_le _ _ Hz Hle).
        specialize (Hskip _ _ _ Hs Hin Hn). discriminate Hskip.
    - exact IH. }
  split; [exact Hfiles |].
  rewrite Hev, !count_app. simpl. rewrite !Nat.add_0_r. split.
  - eapply count_concat_one; [| exact Hfiles]. intros v e (H1 & _). exact H1.
  - eapply count_concat_at_most_one; [| exact Hfiles].
    intros v e (_ & H2 & _). exact H2.
Qed.

(** The theorem on a tree of two files, of which the server holds the
    second with a later timestamp. *)
Lemma completed_walk_counts_witness :
  fst (fixtures.walk_ftp windows (fixtures.local_files fixtures.two_files)
         "C:\data" fixtures.two_files_tree
         (fixtures.scripted fixtures.listing_b fixtures.accept fixtures.accept))
    = Return None /\
  exists per : list (list event),
    events (fixtures.sync_ftp windows (fixtures.local_files fixtures.two_files)
              "C:\data" fixtures.two_files_tree
              (fixtures.scripted fixtures.listing_b fixtures.accept fixtures.accept))
      = concat per ++ [completion; Close] /\
    length per = 2 /\
    count is_lookup (concat per) = 2 /\
    count is_upload (concat per) = 1.
Proof.
  split; [vm_compute; reflexivity |].
  destruct (completed_walk_counts windows
              (fixtures.local_files fixtures.two_files) fixtures.rel_below
              (fun _ => fixtures.two_files_tree) _
              (ftpFns windows (fixtures.local_files fixtures.two_files)
                 (fixtures.scripted fixtures.listing_b fixtures.accept
                    fixtures.accept))
              "C:\data" fixtures.fresh_session)
    as (per & Hev & Hall & _ & _).
  - vm_compute. reflexivity.
  - exists per. split; [exact Hev |].
    apply Forall2_length in Hall.
    assert (Hcat : concat per ++ [completion; Close] =
                   [GetMTime "a.txt" time.zero (Some ErrNotExist);
                    progress "a.txt";
                    PutFile "C:\data\a.txt" "a.txt" None;
                    GetMTime "b.txt" (fixtures.at_second 200) None]
                   ++ [completion; Close])
      by (rewrite <- Hev; vm_compute; reflexivity).
    apply app_inv_tail in Hcat. rewrite Hcat.
    split; [rewrite <- Hall; vm_compute; reflexivity |].
    split; vm_compute; reflexivity.
Defined.

Lemma progress_not_completion (rel : string) : progress rel <> completion.
Proof. unfold progress, completion. simpl. intros H. discriminate H. Qed.

Lemma trace_no_completion os lfs Rel (root : string) vs r evs :
  walk_trace os lfs Rel root vs r evs -> ~ In completion evs.
Proof.
  induction 1; simpl; intros Hin; auto;
    repeat (destruct Hin as [Hin | Hin];
            [first [discriminate Hin
                   | exact (progress_not_completion _ Hin)] |]);
    auto.
Qed.

Lemma split_in_prefix (A : Type) (x : A) (l1 l2 pre post : list A) :
  l1 ++ l2 = pre ++ x :: post -> ~ In x l2 ->
  exists post1, l1 = pre ++ x :: post1.
Proof.
  revert pre. induction l1 as [| a l1 IH]; intros pre Heq Hnot; simpl in Heq.
  - exfalso. apply Hnot. rewrite Heq. apply in_elt.
  - destruct pre as [| b pre]; simpl in Heq.
    + injection Heq as -> _. exists l1. reflexivity.
    + injection Heq as -> Heq. destruct (IH _ Heq Hnot) as [post1 ->].
      exists post1. reflexivity.
Qed.

Lemma ending_no_upload (r : flow (option error)) p rl e :
  ~ In (PutFile p rl e) (fst (ending r)).
Proof.
  destruct r as [[e0 |] |]; simpl; [destruct (is_not_exist e0) | |];
    unfold completion; simpl; intuition discriminate.
Qed.

(** C9 fails as stated: the run that uploads [a.txt] prints no line
    [uploaded: a.txt]; what it prints is an arrow and the path. *)
Lemma progress_line_is_not_uploaded_colon :
  In (PutFile "C:\data\a.txt" "a.txt" None)
     (events (fixtures.run_ftp windows (fixtures.local_files fixtures.one_file)
                "C:\data" fixtures.one_file_tree
                (fixtures.scripted fixtures.no_listing fixtures.accept
                   fixtures.accept))) /\
  List.filter (fun e => match e with Stdout _ => true | _ => false end)
     (events (fixtures.run_ftp windows (fixtures.local_files fixtures.one_file)
                "C:\data" fixtures.one_file_tree
                (fixtures.scripted fixtures.no_listing fixtures.accept
                   fixtures.accept)))
    = [Stdout "↑ a.txt"; Stdout "✓ Sync complete"] /\
  ~ In (Stdout "uploaded: a.txt")
       (events (fixtures.run_ftp windows (fixtures.local_files fixtures.one_file)
                  "C:\data" fixtures.one_file_tree
                  (fixtures.scripted fixtures.no_listing fixtures.accept
                     fixtures.accept))).
Proof.
  split; [vm_compute; tauto |]. split; [vm_compute; reflexivity |].
  vm_compute. intuition discriminate.
Qed.

(** C9 (as amended).  For every file the comparator judges newer, the
    walk function prints one progress line, an arrow followed by the
    relative path, and then attempts the transfer; over a run there are
    as many progress lines as upload attempts, each attempt coming
    right after its line; and a run that ends with status 0 prints the
    completion line once, as its last line. *)
Theorem progress_line_before_each_upload :
  forall os lfs Rel tree St (T : Target St) root (s : St),
    (forall v w localTime t err s1,
        regular v = true ->
        os_Stat lfs (path v) = Ok localTime ->
        getMTime T (rel_of os Rel root v) (fst w) = ((t, err), s1) ->
        newer localTime t = true ->
        exists r s2,
          walkFn os lfs Rel T root v w =
            (Return r,
             (s2, snd w ++ [GetMTime (rel_of os Rel root v) t err;
                            progress (rel_of os Rel root v);
                            PutFile (path v) (rel_of os Rel root v) r]))) /\
    count is_progress (events (sync os lfs Rel tree T root s)) =
      count is_upload (events (sync os lfs Rel tree T root s)) /\
    (forall pre p rl e post,
        events (sync os lfs Rel tree T root s) = pre ++ PutFile p rl e :: post ->
        exists pre', pre = pre' ++ [progress rl]) /\
    (exit (sync os lfs Rel tree T root s) = Exited 0 ->
     exists log,
       events (sync os lfs Rel tree T root s) = log ++ [completion; Close] /\
       ~ In completion log).
Proof.
  intros os lfs Rel tree St T root s. split; [| split; [| split]].
  - intros v [s0 log] localTime t err s1 Hreg Hstat Hget Hnew.
    apply regular_inv in Hreg as [Hw Hd]. simpl in Hget.
    unfold walkFn. rewrite Hw, Hd. simpl.
    fold (rel_of os Rel root v). rewrite Hget, Hstat, Hnew.
    destruct (putFile T (path v) (rel_of os Rel root v) s1) as [r s2].
    exists r, s2. rewrite <- !app_assoc. reflexivity.
  - destruct (sync_shape os lfs Rel T tree root s) as (r & log & Htr & -> & _).
    rewrite !count_app, (trace_progress_count _ _ _ _ _ _ _ Htr). f_equal.
    destruct r as [[e |] |]; simpl; try reflexivity.
    destruct (is_not_exist e); reflexivity.
  - intros pre p rl e post Heq.
    destruct (sync_shape os lfs Rel T tree root s) as (r & log & Htr & Hev & _).
    rewrite Hev in Heq.
    destruct (split_in_prefix _ _ _ _ _ _ Heq (ending_no_upload r p rl e))
      as [post1 Hlog].
    exact (trace_upload_announced _ _ _ _ _ _ _ Htr _ _ _ _ _ Hlog).
  - intros Hexit.
    destruct (sync_shape os lfs Rel T tree root s) as (r & log & Htr & Hev & Hex).
    rewrite Hex in Hexit. exists log. split.
    + rewrite Hev. f_equal. destruct r as [[e |] |]; simpl in *.
      * destruct (is_not_exist e); [reflexivity | discriminate Hexit].
      * reflexivity.
      * discriminate Hexit.
    + exact (trace_no_completion _ _ _ _ _ _ _ Htr).
Qed.

(* ===================================================================== *)
(** * The local stat and the timestamp lookup                              *)
(* ===================================================================== *)

(** C10.  For a regular file the walk function drops the error of the
    local stat and reads the modification time of its result: when the
    stat succeeds the function returns; when the stat fails, whatever
    the error, the function has made the timestamp lookup and then
    panics on the absent file information, with no error branch. *)
Theorem stat_failure_panics :
  forall os lfs Rel St (T : Target St) root v (w : St * list event),
    regular v = true ->
    (forall localTime,
        os_Stat lfs (path v) = Ok localTime ->
        exists r w', walkFn os lfs Rel T root v w = (Return r, w')) /\
    (forall e,
        os_Stat lfs (path v) = Err e ->
        exists t err s1,
          getMTime T (rel_of os Rel root v) (fst w) = ((t, err), s1) /\
          walkFn os lfs Rel T root v w =
            (Panic, (s1, snd w ++ [GetMTime (rel_of os Rel root v) t err]))).
Proof.
  intros os lfs Rel St T root v [s log] Hreg.
  apply regular_inv in Hreg as [Hw Hd].
  unfold walkFn. rewrite Hw, Hd. simpl. fold (rel_of os Rel root v).
  destruct (getMTime T (rel_of os Rel root v) s) as [[t err] s1] eqn:Hget.
  split.
  - intros localTime ->. destruct (newer localTime t).
    + destruct (putFile T (path v) (rel_of os Rel root v) s1) as [r s2].
      eauto.
    + eauto.
  - intros e ->. exists t, err, s1. split; reflexivity.
Qed.

(** The theorem on a file removed between the walk and its stat. *)
Lemma stat_failure_panics_witness :
  regular (fixtures.file "C:\data\a.txt") = true /\
  fst (walkFn windows
         (fixtures.removed_before_stat "C:\data\a.txt"
            (fixtures.local_files fixtures.one_file))
         fixtures.rel_below
         (ftpFns windows
            (fixtures.removed_before_stat "C:\data\a.txt"
               (fixtures.local_files fixtures.one_file))
            (fixtures.scripted fixtures.no_listing fixtures.accept fixtures.accept))
         "C:\data" (fixtures.file "C:\data\a.txt") (fixtures.fresh_session, []))
    = Panic.
Proof.
  split; [reflexivity |].
  destruct (stat_failure_panics windows
              (fixtures.removed_before_stat "C:\data\a.txt"
                 (fixtures.local_files fixtures.one_file))
              fixtures.rel_below _
              (ftpFns windows
                 (fixtures.removed_before_stat "C:\data\a.txt"
                    (fixtures.local_files fixtures.one_file))
                 (fixtures.scripted fixtures.no_listing fixtures.accept
                    fixtures.accept))
              "C:\data" (fixtures.file "C:\data\a.txt")
              (fixtures.fresh_session, []) eq_refl) as [_ Hfail].
  destruct (Hfail (PathError "stat" "C:\data\a.txt" (Errno ENOENT)) eq_refl)
    as (t & err & s1 & _ & Hstep).
  rewrite Hstep. reflexivity.
Defined.

Lemma find_entry_error (base : string) (entries : list ftp.Entry) tm e :
  find_entry base entries = (tm, Some e) -> tm = time.zero /\ e = ErrNotExist.
Proof.
  induction entries as [| x entries IH]; simpl.
  - intros H. injection H as <- <-. auto.
  - destruct (String.eqb (ftp.Name x) base); [discriminate | exact IH].
Qed.

(** A name that is not in the listing is reported as [os.ErrNotExist],
    with the zero time. *)
Lemma find_entry_missing (base : string) (entries : list ftp.Entry) :
  (forall x, In x entries -> ftp.Name x <> base) ->
  find_entry base entries = (time.zero, Some ErrNotExist).
Proof.
  induction entries as [| x entries IH]; simpl; intros Hno.
  - reflexivity.
  - destruct (String.eqb_spec (ftp.Name x) base) as [Heq | _].
    + exfalso. exact (Hno x (or_introl eq_refl) Heq).
    + apply IH. intros y Hy. apply Hno. right. exact Hy.
Qed.

(** Whatever makes the FTP lookup fail, a listing that fails or a name
    that is not listed, the time it returns is the zero time. *)
Lemma ftp_mtime_error_absent os S (B : ftp.Server S) (t : ftpTarget S)
    (rel : string) tm e t1 :
  ftp_mtime os B t rel = ((tm, Some e), t1) -> tm = time.zero.
Proof.
  unfold ftp_mtime.
  destruct (ftp.List B _ (c t)) as [[entries | err] c1].
  - intros H. injection H as H _. apply find_entry_error in H as [-> _].
    reflexivity.
  - intros H. injection H as <- _ _. reflexivity.
Qed.

(** A file the listing does not name is reported as not existing, not
    as a failure of the connection. *)
Lemma ftp_mtime_not_listed os S (B : ftp.Server S) (t : ftpTarget S)
    (rel : string) entries c1 :
  ftp.List B (filepath.ToSlash os
                (filepath.Join os (prefix t) (filepath.Dir os rel))) (c t)
    = (Ok entries, c1) ->
  (forall x, In x entries -> ftp.Name x <> filepath.Base os rel) ->
  fst (ftp_mtime os B t rel) = (time.zero, Some ErrNotExist).
Proof.
  intros Hlist Hno. unfold ftp_mtime. rewrite Hlist. simpl.
  apply find_entry_missing. exact Hno.
Qed.

(** Whatever makes the stat of the mounted file fail, the time the SMB
    lookup returns is the zero time, and the share is unchanged. *)
Lemma smb_mtime_error_absent os F (st : smbTarget) (rel : string)
    (d : smb.Disk) tm e d1 :
  smb_mtime os F st rel d = ((tm, Some e), d1) -> tm = time.zero /\ d1 = d.
Proof.
  unfold smb_mtime. destruct (smb.Stat F (toRemote os st rel) d).
  - discriminate.
  - intros H. injection H as <- _ <-. auto.
Qed.

Lemma newer_absent (localTime : Time) : newer localTime time.zero = true.
Proof. reflexivity. Qed.

(** A lookup that fails with the zero time sends the walk function
    into the upload; its error is dropped and the result of the walk
    function is the result of the upload. *)
Lemma walkFn_lookup_error os lfs Rel St (T : Target St) root v s log
    localTime e s1 :
  regular v = true ->
  os_Stat lfs (path v) = Ok localTime ->
  getMTime T (rel_of os Rel root v) s = ((time.zero, Some e), s1) ->
  walkFn os lfs Rel T root v (s, log) =
    (Return (fst (putFile T (path v) (rel_of os Rel root v) s1)),
     (snd (putFile T (path v) (rel_of os Rel root v) s1),
      log ++ [GetMTime (rel_of os Rel root v) time.zero (Some e);
              progress (rel_of os Rel root v);
              PutFile (path v) (rel_of os Rel root v)
                (fst (putFile T (path v) (rel_of os Rel root v) s1))])).
Proof.
  intros Hreg Hstat Hget. apply regular_inv in Hreg as [Hw Hd].
  unfold walkFn. rewrite Hw, Hd. simpl. fold (rel_of os Rel root v).
  rewrite Hget, Hstat, newer_absent.
  destruct (putFile T (path v) (rel_of os Rel root v) s1) as [r s2]. simpl.
  rewrite <- !app_assoc. reflexivity.
Qed.

(** C4.  Whenever the timestamp lookup of either target fails, for any
    reason, the time it hands back is the absent (zero) time, and the
    walk function goes on as for a file that does not exist remotely:
    it prints the progress line and uploads, and its result is the
    result of the upload; the error of the lookup is neither returned
    nor printed. *)
Theorem lookup_failure_is_absent :
  forall os lfs Rel root v localTime,
    regular v = true ->
    os_Stat lfs (path v) = Ok localTime ->
    (forall S (B : ftp.Server S) (t : ftpTarget S) log tm e t1,
        ftp_mtime os B t (rel_of os Rel root v) = ((tm, Some e), t1) ->
        tm = time.zero /\
        walkFn os lfs Rel (ftpFns os lfs B) root v (t, log) =
          (Return (fst (ftp_upload os lfs B t1 (path v) (rel_of os Rel root v))),
           (snd (ftp_upload os lfs B t1 (path v) (rel_of os Rel root v)),
            log ++ [GetMTime (rel_of os Rel root v) time.zero (Some e);
                    progress (rel_of os Rel root v);
                    PutFile (path v) (rel_of os Rel root v)
                      (fst (ftp_upload os lfs B t1 (path v)
                              (rel_of os Rel root v)))]))) /\
    (forall F now net (st : smbTarget) (d : smb.Disk) log tm e d1,
        smb_mtime os F st (rel_of os Rel root v) d = ((tm, Some e), d1) ->
        tm = time.zero /\
        walkFn os lfs Rel (smbFns os lfs F now net st) root v (d, log) =
          (Return (fst (smb_upload os lfs F now st (path v)
                          (rel_of os Rel root v) d1)),
           (snd (smb_upload os lfs F now st (path v) (rel_of os Rel root v) d1),
            log ++ [GetMTime (rel_of os Rel root v) time.zero (Some e);
                    progress (rel_of os Rel root v);
                    PutFile (path v) (rel_of os Rel root v)
                      (fst (smb_upload os lfs F now st (path v)
                              (rel_of os Rel root v) d1))]))).
Proof.
  intros os lfs Rel root v localTime Hreg Hstat. split.
  - intros S B t log tm e t1 Hget.
    assert (tm = time.zero) as -> by (eapply ftp_mtime_error_absent; eauto).
    split; [reflexivity |].
    exact (walkFn_lookup_error os lfs Rel _ (ftpFns os lfs B) root v t log
             localTime e t1 Hreg Hstat Hget).
  - intros F now net st d log tm e d1 Hget.
    destruct (smb_mtime_error_absent _ _ _ _ _ _ _ _ Hget) as [-> ->].
    split; [reflexivity |].
    exact (walkFn_lookup_error os lfs Rel _ (smbFns os lfs F now net st)
             root v d log localTime e d Hreg Hstat Hget).
Qed.

(** The theorem on a server that refuses the listing. *)
Lemma lookup_failure_is_absent_witness :
  regular (fixtures.file "C:\data\a.txt") = true /\
  os_Stat (fixtures.local_files fixtures.one_file) "C:\data\a.txt"
    = Ok (fixtures.at_second 100) /\
  walkFn windows (fixtures.local_files fixtures.one_file) fixtures.rel_below
    (ftpFns windows (fixtures.local_files fixtures.one_file)
       (fixtures.scripted (fun _ => Err (ProtoError 450 "Try again later"))
          fixtures.accept fixtures.accept))
    "C:\data" (fixtures.file "C:\data\a.txt") (fixtures.fresh_session, [])
  = (Return None,
     ({| c := {| ftp.srv := [("a.txt", "alpha")];
                 ftp.sent := [ftp.LIST "."; ftp.STOR "a.txt" "alpha" None] |};
         prefix := "" |},
      [GetMTime "a.txt" time.zero (Some (ProtoError 450 "Try again later"));
       progress "a.txt";
       PutFile "C:\data\a.txt" "a.txt" None])).
Proof.
  split; [reflexivity |]. split; [reflexivity |].
  destruct (lookup_failure_is_absent windows
              (fixtures.local_files fixtures.one_file) fixtures.rel_below
              "C:\data" (fixtures.file "C:\data\a.txt")
              (fixtures.at_second 100) eq_refl eq_refl) as [Hftp _].
  destruct (Hftp _
              (fixtures.scripted (fun _ => Err (ProtoError 450 "Try again later"))
                 fixtures.accept fixtures.accept)
              fixtures.fresh_session [] time.zero
              (ProtoError 450 "Try again later")
              {| c := {| ftp.srv := []; ftp.sent := [ftp.LIST "."] |};
                 prefix := "" |} eq_refl) as [_ Hstep].
  rewrite Hstep. vm_compute. reflexivity.
Defined.

(* ===================================================================== *)
(** * Creation of the remote directory chain                               *)
(* ===================================================================== *)

(** The replies to [MakeDir] do not reach the state of the server the
    upload continues on. *)
Lemma make_dirs_replies_dropped os S (B : ftp.Server S)
    (f : string -> S -> option error) (dirs : list string) :
  forall p (c1 c2 : ftp.ServerConn S),
    ftp.srv c1 = ftp.srv c2 ->
    ftp.srv (make_dirs os (with_mkdir_replies B f) dirs p c1) =
    ftp.srv (make_dirs os B dirs p c2).
Proof.
  induction dirs as [| d dirs IH]; intros p c1 c2 Hsrv; simpl.
  - exact Hsrv.
  - unfold ftp.MakeDir. simpl. rewrite Hsrv.
    destruct (ftp.srvMakeDir B (filepath.Join os p d) (ftp.srv c2)) as [r s'].
    simpl. apply IH. reflexivity.
Qed.

(** C5 fails as stated, on both targets.  On the FTP server every
    [MakeDir] is refused with "permission denied", the file is stored,
    the upload returns no error and the run ends with status 0.  On
    the share [MkdirAll] is refused, the upload fails when it creates
    its temporary file in the missing directory, and the run still
    ends with status 0 and its completion line. *)
Lemma directory_creation_failure_not_surfaced :
  (fixtures.commands
     (fixtures.run_ftp linux (fixtures.local_files fixtures.nested_posix)
        "/data" fixtures.nested_posix_tree
        (fixtures.scripted fixtures.no_listing fixtures.denied fixtures.accept))
   = [ftp.LIST "a/b";
      ftp.MKD "a" (Some (ProtoError 550 "Permission denied"));
      ftp.MKD "a/b" (Some (ProtoError 550 "Permission denied"));
      ftp.STOR "a/b/c.txt" "gamma" None;
      ftp.QUIT] /\
   In (PutFile "/data/a/b/c.txt" "a/b/c.txt" None)
      (events
         (fixtures.run_ftp linux (fixtures.local_files fixtures.nested_posix)
            "/data" fixtures.nested_posix_tree
            (fixtures.scripted fixtures.no_listing fixtures.denied
               fixtures.accept))) /\
   exit (fixtures.run_ftp linux (fixtures.local_files fixtures.nested_posix)
           "/data" fixtures.nested_posix_tree
           (fixtures.scripted fixtures.no_listing fixtures.denied fixtures.accept))
   = Exited 0) /\
  (smb.mkdirall_fault fixtures.no_directories "Z:a\b"
   = Some (PathError "mkdir" "Z:a\b" (Errno EACCES)) /\
   events (fixtures.run_smb windows (fixtures.local_files fixtures.nested)
             "C:\data" fixtures.nested_tree fixtures.no_directories ∅)
   = [GetMTime "a/b/c.txt" time.zero
        (Some (PathError "stat" "Z:a\b\c.txt" (Errno ENOENT)));
      progress "a/b/c.txt";
      PutFile "C:\data\a\b\c.txt" "a/b/c.txt"
        (Some (PathError "open" "Z:a\b\c.txt.tmp" (Errno ENOENT)));
      completion; Close] /\
   exit (fixtures.run_smb windows (fixtures.local_files fixtures.nested)
           "C:\data" fixtures.nested_tree fixtures.no_directories ∅)
   = Exited 0).
Proof.
  split; [split; [| split] | split; [| split]]; vm_compute; tauto.
Qed.

(** C5 (as amended).  On both targets every failure of the creation of
    the remote directory chain is dropped, "already exists" or not: the
    result of an upload and the remote state it leaves are the same
    whatever the directory creation answers.  (An upload error comes
    from the opening of the local file or from the transfer: the store
    on the server; the creation, the copy and the renaming of the
    temporary file on the share.) *)
Theorem directory_creation_failures_dropped :
  (forall os lfs S (B : ftp.Server S) (f : string -> S -> option error)
          (t : ftpTarget S) (local rel : string),
      fst (ftp_upload os lfs (with_mkdir_replies B f) t local rel) =
      fst (ftp_upload os lfs B t local rel) /\
      ftp.srv (c (snd (ftp_upload os lfs (with_mkdir_replies B f) t local rel))) =
      ftp.srv (c (snd (ftp_upload os lfs B t local rel)))) /\
  (forall os lfs (F : smb.Faults) (f : string -> option error) now
          (st : smbTarget) (local rel : string) (d : smb.Disk),
      smb_upload os lfs (with_mkdirall_faults F f) now st local rel d =
      smb_upload os lfs F now st local rel d) /\
  (forall os lfs S (B : ftp.Server S) (t : ftpTarget S) (local rel : string)
          e t',
      ftp_upload os lfs B t local rel = (Some e, t') ->
      os_Open lfs local = Err e \/
      exists src pre,
        os_Open lfs local = Ok src /\
        ftp.sent (c t') =
          pre ++ [ftp.STOR (filepath.ToSlash os (filepath.Join os (prefix t) rel))
                    src (Some e)]) /\
  (forall os lfs (F : smb.Faults) now (st : smbTarget) (local rel : string)
          (d : smb.Disk) e d',
      smb_upload os lfs F now st local rel d = (Some e, d') ->
      os_Open lfs local = Err e \/
      smb.create_fault F (toRemote os st rel +:+ ".tmp") = Some e \/
      (exists n, smb.copy_fault F (toRemote os st rel +:+ ".tmp") = Some (n, e)) \/
      (exists d2,
          smb.Rename F (toRemote os st rel +:+ ".tmp") (toRemote os st rel) d2
          = (Some e, d'))).
Proof.
  split; [| split; [| split]].
  - intros os lfs S B f t local rel. unfold ftp_upload.
    set (remote := filepath.ToSlash os (filepath.Join os (prefix t) rel)).
    set (dir := filepath.Dir os remote).
    assert (Hsrv :
      ftp.srv (if negb (String.eqb dir "") && negb (String.eqb dir ".")
               then make_dirs os (with_mkdir_replies B f)
                      (strings.Split dir "/"%char) "" (c t)
               else c t) =
      ftp.srv (if negb (String.eqb dir "") && negb (String.eqb dir ".")
               then make_dirs os B (strings.Split dir "/"%char) "" (c t)
               else c t)).
    { destruct (negb (String.eqb dir "") && negb (String.eqb dir "."));
        [apply make_dirs_replies_dropped |]; reflexivity. }
    destruct (os_Open lfs local) as [src | err]; simpl.
    + unfold ftp.Stor. simpl. rewrite Hsrv.
      destruct (ftp.srvStor B remote src _) as [r s']. simpl. auto.
    + auto.
  - intros os lfs F f now st local rel d. reflexivity.
  - intros os lfs S B t local rel e t'. unfold ftp_upload.
    destruct (os_Open lfs local) as [src | err].
    + unfold ftp.Stor.
      destruct (ftp.srvStor B _ src _) as [r s'] eqn:Hstor.
      intros H. injection H as -> <-. right. exists src. simpl.
      eexists. split; reflexivity.
    + intros H. injection H as <- _. left. reflexivity.
  - intros os lfs F now st local rel d e d'. unfold smb_upload. simpl.
    destruct (os_Open lfs local) as [src | err].
    + unfold smb.Create.
      destruct (smb.create_fault F _) as [ec |] eqn:Hc.
      { intros H. injection H as <- _. auto. }
      unfold smb.Copy.
      destruct (smb.copy_fault F _) as [[n ex] |] eqn:Hx.
      { intros H. injection H as <- _. right. right. left. exists n.
        reflexivity. }
      intros H. right. right. right. eexists. exact H.
    + intros H. injection H as <- _. left. reflexivity.
Qed.

(* ===================================================================== *)
(** * Slash normalization                                                  *)
(* ===================================================================== *)

Lemma chars_str (l : list ascii) : strings.chars (strings.str l) = l.
Proof. apply list_ascii_of_string_of_list_ascii. Qed.

(** [ToSlash] leaves no separator of the host other than the slash. *)
Lemma ToSlash_normalized (os : GOOS) (p : string) :
  slash_normalized os (filepath.ToSlash os p).
Proof.
  unfold slash_normalized, filepath.ToSlash. destruct os; simpl.
  - intros ch Hin ->. rewrite chars_str in Hin.
    unfold filepath.replace in Hin. apply in_map_iff in Hin as (x & Hx & _).
    destruct (Ascii.eqb x "\"%char) eqn:Hxb.
    + discriminate Hx.
    + subst x. discriminate Hxb.
  - intros ch _ ->. reflexivity.
Qed.

(** Every relative path the walk hands to [getMTime] and [putFile] is
    slash-normalized, on every host. *)
Lemma trace_handed_normalized os lfs Rel (root : string) vs r evs :
  walk_trace os lfs Rel root vs r evs ->
  forall e rel, In e evs -> handed e = Some rel -> slash_normalized os rel.
Proof.
  induction 1; intros e' rel' Hin Hh; simpl in Hin;
    repeat (destruct Hin as [Hin | Hin];
            [subst e'; simpl in Hh;
             first [discriminate Hh
                   | injection Hh as <-; apply ToSlash_normalized] |]);
    eauto; contradiction.
Qed.

Lemma sync_handed_normalized os lfs Rel tree St (T : Target St) root (s : St) :
  forall e rel,
    In e (events (sync os lfs Rel tree T root s)) ->
    handed e = Some rel -> slash_normalized os rel.
Proof.
  intros e rel Hin Hh.
  destruct (sync_shape os lfs Rel T tree root s) as (r & log & Htr & Hev & _).
  rewrite Hev in Hin. apply in_app_or in Hin as [Hin | Hin].
  - exact (trace_handed_normalized _ _ _ _ _ _ _ Htr _ _ Hin Hh).
  - exfalso. destruct r as [[e0 |] |]; simpl in Hin;
      [destruct (is_not_exist e0); simpl in Hin | |];
      unfold completion in Hin;
      repeat (destruct Hin as [Hin | Hin]; [subst e; discriminate Hh |]);
      contradiction.
Qed.

(** On a host whose separator is the slash, the directory chain of
    [a/b/c.txt] is created element by element, with slashes. *)
Lemma posix_directory_chain :
  fixtures.commands
    (fixtures.run_ftp linux (fixtures.local_files fixtures.nested_posix)
       "/data" fixtures.nested_posix_tree
       (fixtures.scripted fixtures.no_listing fixtures.accept fixtures.accept))
  = [ftp.LIST "a/b"; ftp.MKD "a" None; ftp.MKD "a/b" None;
     ftp.STOR "a/b/c.txt" "gamma" None; ftp.QUIT].
Proof. vm_compute. reflexivity. Qed.

(** C6 at its failing input: on Windows the walk hands the normalized
    path [a/b/c.txt] to the lookup and to the upload, but the upload of
    the FTP target creates the remote directory chain with the single
    path [a\b], backslash-separated: [filepath.Dir] and [filepath.Join]
    bring the separator of the host back after [ToSlash], and the split
    at slashes finds nothing to split. *)
Theorem windows_directory_chain_has_backslash :
  events (fixtures.run_ftp windows (fixtures.local_files fixtures.nested)
            "C:\data" fixtures.nested_tree
            (fixtures.scripted fixtures.no_listing fixtures.accept fixtures.accept))
  = [GetMTime "a/b/c.txt" time.zero (Some ErrNotExist);
     progress "a/b/c.txt";
     PutFile "C:\data\a\b\c.txt" "a/b/c.txt" None;
     completion; Close] /\
  fixtures.commands
    (fixtures.run_ftp windows (fixtures.local_files fixtures.nested)
       "C:\data" fixtures.nested_tree
       (fixtures.scripted fixtures.no_listing fixtures.accept fixtures.accept))
  = [ftp.LIST "a/b"; ftp.MKD "a\b" None;
     ftp.STOR "a/b/c.txt" "gamma" None; ftp.QUIT] /\
  ~ slash_normalized windows "a\b".
Proof.
  split; [vm_compute; reflexivity |]. split; [vm_compute; reflexivity |].
  intros H. specialize (H "\"%char). simpl in H.
  assert (Hbad : "\"%char = "/"%char) by (apply H; [tauto | reflexivity]).
  discriminate Hbad.
Qed.

(* ===================================================================== *)
(** * The write on the mounted share                                       *)
(* ===================================================================== *)

Lemma append_length (a b : string) :
  String.length (a +:+ b) = String.length a + String.length b.
Proof. induction a as [| ch a IH]; simpl; [reflexivity | rewrite IH; reflexivity]. Qed.

(** The temporary file is never the destination itself. *)
Lemma tmp_not_destination (dst : string) : dst +:+ ".tmp" <> dst.
Proof.
  intros H. apply (f_equal String.length) in H.
  rewrite append_length in H. simpl in H. lia.
Qed.

(** C7.  An upload to the share that returns an error, at whatever
    point of the writing, leaves the destination path as it was: with
    its previous file if it had one, absent if it had none.  The
    destination changes only in an upload that returns no error, and
    then it holds the whole content read from the local file, moved
    there from the temporary file next to it. *)
Theorem smb_upload_never_leaves_partial_destination :
  forall os lfs (F : smb.Faults) now (st : smbTarget) (local rel : string)
         (d d' : smb.Disk) r,
    smb_upload os lfs F now st local rel d = (r, d') ->
    (forall e, r = Some e ->
               d' !! toRemote os st rel = d !! toRemote os st rel) /\
    (r = None ->
     exists src,
       os_Open lfs local = Ok src /\
       d' !! toRemote os st rel = Some {| smb.data := src; smb.modtime := now |} /\
       d' !! (toRemote os st rel +:+ ".tmp") = None).
Proof.
  intros os lfs F now st local rel d d' r.
  unfold smb_upload. simpl.
  set (dst := toRemote os st rel).
  assert (Hne : dst +:+ ".tmp" <> dst) by apply tmp_not_destination.
  destruct (os_Open lfs local) as [src | err].
  - unfold smb.Create.
    destruct (smb.create_fault F (dst +:+ ".tmp")) as [ec |].
    { intros H. injection H as <- <-. split; [reflexivity | discriminate]. }
    unfold smb.Copy.
    destruct (smb.copy_fault F (dst +:+ ".tmp")) as [[n ex] |].
    { intros H. injection H as <- <-. split; [| discriminate].
      intros e _. rewrite !lookup_insert_ne by exact Hne. reflexivity. }
    unfold smb.Rename.
    destruct (smb.rename_fault F (dst +:+ ".tmp") dst) as [er |].
    { intros H. injection H as <- <-. split; [| discriminate].
      intros e _. rewrite !lookup_insert_ne by exact Hne. reflexivity. }
    rewrite lookup_insert_eq.
    intros H. injection H as <- <-. split; [discriminate |].
    intros _. exists src. split; [reflexivity |]. split.
    + rewrite lookup_insert_eq. reflexivity.
    + rewrite lookup_insert_ne by (intros Heq; apply Hne; symmetry; exact Heq).
      apply lookup_delete_eq.
  - intros H. injection H as <- <-. split; [reflexivity | discriminate].
Qed.

(** The theorem on a copy that breaks after two bytes, over a
    destination that holds an older file. *)
Lemma smb_upload_never_leaves_partial_destination_witness :
  smb_upload windows (fixtures.local_files fixtures.one_file)
    fixtures.drops_after_two (fixtures.at_second 500) fixtures.mounted
    "C:\data\a.txt" "a.txt" fixtures.old_share
  = (Some (Errno EIO),
     <[ "Z:a.txt.tmp" := {| smb.data := "al";
                            smb.modtime := fixtures.at_second 500 |} ]>
       fixtures.old_share) /\
  (<[ "Z:a.txt.tmp" := {| smb.data := "al";
                          smb.modtime := fixtures.at_second 500 |} ]>
     fixtures.old_share : smb.Disk) !! "Z:a.txt"
  = Some {| smb.data := "previous"; smb.modtime := fixtures.at_second 10 |}.
Proof.
  assert (Hrun :
    smb_upload windows (fixtures.local_files fixtures.one_file)
      fixtures.drops_after_two (fixtures.at_second 500) fixtures.mounted
      "C:\data\a.txt" "a.txt" fixtures.old_share
    = (Some (Errno EIO),
       <[ "Z:a.txt.tmp" := {| smb.data := "al";
                              smb.modtime := fixtures.at_second 500 |} ]>
         fixtures.old_share)).
  { unfold smb_upload. simpl. unfold smb.Create, smb.Copy. simpl.
    rewrite insert_insert_eq. reflexivity. }
  split; [exact Hrun |].
  destruct (smb_upload_never_leaves_partial_destination _ _ _ _ _ _ _ _ _ _ Hrun)
    as [Hkeep _].
  etransitivity; [exact (Hkeep (Errno EIO) eq_refl) |].
  vm_compute. reflexivity.
Defined.

(* ===================================================================== *)
(** * More on the run                                                      *)
(* ===================================================================== *)

Section RunShape.
Variable os : GOOS.
Variable lfs : LocalFS.
Variable Rel : string -> string -> string * option error.
Context {St : Type} (T : Target St).

Local Abbreviation walks := (walk os lfs Rel T).
Local Abbreviation trace := (walk_trace os lfs Rel).

(** A walk that went through a first part of the entries goes on with
    the rest from where it stands. *)
Lemma walk_app (root : string) (pre rest : list Visit) :
  forall w w1,
    walks root pre w = (Return None, w1) ->
    walks root (pre ++ rest) w = walks root rest w1.
Proof.
  induction pre as [| v pre IH]; intros w w1 Hpre; simpl in *.
  - injection Hpre as <-. reflexivity.
  - destruct (walkFn os lfs Rel T root v w) as [[[e |] |] w'].
    + discriminate Hpre.
    + apply IH. exact Hpre.
    + discriminate Hpre.
Qed.

(** Every upload comes after the lookup of the same relative path, and
    the comparator judged the file newer. *)
Lemma trace_upload_judged_newer (root : string) vs r evs :
  trace root vs r evs ->
  forall pre p rl e post,
    evs = pre ++ PutFile p rl e :: post ->
    exists pre' t err localTime,
      pre = pre' ++ [GetMTime rl t err; progress rl] /\
      os_Stat lfs p = Ok localTime /\
      newer localTime t = true.
Proof.
  induction 1 as [| v vs e1 Hw | v vs r evs Hw Hd Htr IH | v vs t err e1 Hr Hs
                 | v vs l t err r evs Hr Hs Hn Htr IH
                 | v vs l t err r evs Hr Hs Hn Htr IH | v vs l t err e0 Hr Hs Hn];
    intros pre p rl e post Heq.
  - destruct pre; discriminate Heq.
  - destruct pre; discriminate Heq.
  - eapply IH. exact Heq.
  - destruct pre as [| x [| y pre]]; discriminate Heq.
  - destruct pre as [| x pre]; [discriminate Heq |].
    injection Heq as <- Heq.
    destruct (IH _ _ _ _ _ Heq) as (pre' & t' & err' & l' & -> & Hs' & Hn').
    exists (GetMTime (rel_of os Rel root v) t err :: pre'), t', err', l'. auto.
  - destruct pre as [| x [| y [| z pre]]]; try discriminate Heq.
    + inversion Heq; subst. exists [], t, err, l. auto.
    + inversion Heq as [[Hx Hy Hz Heq']].
      destruct (IH _ _ _ _ _ Heq') as (pre' & t' & err' & l' & -> & Hs' & Hn').
      exists (GetMTime (rel_of os Rel root v) t err
                :: progress (rel_of os Rel root v)
                :: PutFile (path v) (rel_of os Rel root v) None :: pre'),
             t', err', l'.
      auto.
  - destruct pre as [| x [| y [| z pre]]]; try discriminate Heq.
    + inversion Heq; subst. exists [], t, err, l. auto.
    + destruct pre; discriminate Heq.
Qed.

(** A walk panics only at a regular file whose stat fails. *)
Lemma trace_panic (root : string) vs r evs :
  trace root vs r evs ->
  r = Panic ->
  exists v e, In v vs /\ regular v = true /\ os_Stat lfs (path v) = Err e.
Proof.
  induction 1 as [| v vs e1 Hw | v vs r evs Hw Hd Htr IH | v vs t err e1 Hr Hs
                 | v vs l t err r evs Hr Hs Hn Htr IH
                 | v vs l t err r evs Hr Hs Hn Htr IH | v vs l t err e0 Hr Hs Hn];
    intros Hp; try discriminate Hp.
  - destruct (IH Hp) as (v' & e & Hin & H'). exists v', e. simpl. auto.
  - exists v, e1. simpl. auto.
  - destruct (IH Hp) as (v' & e & Hin & H'). exists v', e. simpl. auto.
  - destruct (IH Hp) as (v' & e & Hin & H'). exists v', e. simpl. auto.
Qed.

End RunShape.

(** X1.  In every run that has a session, the release of the session,
    when it happens, is the last thing the run does and happens once:
    either the run leaves through [log.Fatal] with status 1, the fatal
    message is its last event and the session is not released, or the
    run ends otherwise and its last event is the one release. *)
Theorem release_is_last_event :
  forall os lfs Rel tree St (T : Target St) root (s : St),
    (exit (sync os lfs Rel tree T root s) = Exited 1 /\
     count is_close (events (sync os lfs Rel tree T root s)) = 0 /\
     exists log e,
       events (sync os lfs Rel tree T root s) = log ++ [LogFatal e]) \/
    (exit (sync os lfs Rel tree T root s) <> Exited 1 /\
     exists log,
       events (sync os lfs Rel tree T root s) = log ++ [Close] /\
       count is_close log = 0).
Proof.
  intros os lfs Rel tree St T root s.
  destruct (sync_shape os lfs Rel T tree root s) as (r & log & Htr & -> & ->).
  pose proof (trace_no_close _ _ _ _ _ _ _ Htr) as Hnc.
  assert (Hdone : count is_close (log ++ [completion]) = 0)
    by (rewrite count_app, Hnc; reflexivity).
  destruct r as [[e |] |]; simpl.
  - destruct (is_not_exist e); simpl.
    + right. split; [discriminate |]. exists (log ++ [completion]).
      rewrite <- app_assoc. auto.
    + left. split; [reflexivity |]. split.
      * rewrite count_app, Hnc. reflexivity.
      * exists log, e. reflexivity.
  - right. split; [discriminate |]. exists (log ++ [completion]).
    rewrite <- app_assoc. auto.
  - right. split; [discriminate |]. exists log. auto.
Qed.

(** X2.  In every run, an upload is attempted only for a file the
    comparator judged newer: each call of the upload comes right after
    the lookup of the same relative path and the progress line, the
    local stat of the uploaded file had succeeded, and [newer] is true
    of the local time and the time the lookup returned. *)
Theorem upload_only_when_newer :
  forall os lfs Rel tree St (T : Target St) root (s : St) pre p rl e post,
    events (sync os lfs Rel tree T root s) = pre ++ PutFile p rl e :: post ->
    exists pre' t err localTime,
      pre = pre' ++ [GetMTime rl t err; progress rl] /\
      os_Stat lfs p = Ok localTime /\
      newer localTime t = true.
Proof.
  intros os lfs Rel tree St T root s pre p rl e post Heq.
  destruct (sync_shape os lfs Rel T tree root s) as (r & log & Htr & Hev & _).
  rewrite Hev in Heq.
  destruct (split_in_prefix _ _ _ _ _ _ Heq (ending_no_upload r p rl e))
    as [post1 Hlog].
  exact (trace_upload_judged_newer _ _ _ _ _ _ _ Htr _ _ _ _ _ Hlog).
Qed.

(** The theorem on the run that uploads [a.txt]. *)
Lemma upload_only_when_newer_witness :
  events (fixtures.sync_ftp windows (fixtures.local_files fixtures.one_file)
            "C:\data" fixtures.one_file_tree
            (fixtures.scripted fixtures.no_listing fixtures.accept
               fixtures.accept))
  = [GetMTime "a.txt" time.zero (Some ErrNotExist); progress "a.txt"]
    ++ PutFile "C:\data\a.txt" "a.txt" None :: [completion; Close] /\
  exists pre' t err localTime,
    [GetMTime "a.txt" time.zero (Some ErrNotExist); progress "a.txt"]
      = pre' ++ [GetMTime "a.txt" t err; progress "a.txt"] /\
    os_Stat (fixtures.local_files fixtures.one_file) "C:\data\a.txt"
      = Ok localTime /\
    newer localTime t = true.
Proof.
  split; [vm_compute; reflexivity |].
  apply (upload_only_when_newer windows
           (fixtures.local_files fixtures.one_file) fixtures.rel_below
           (fun _ => fixtures.one_file_tree) _
           (ftpFns windows (fixtures.local_files fixtures.one_file)
              (fixtures.scripted fixtures.no_listing fixtures.accept
                 fixtures.accept))
           "C:\data" fixtures.fresh_session
           [GetMTime "a.txt" time.zero (Some ErrNotExist); progress "a.txt"]
           "C:\data\a.txt" "a.txt" None [completion; Close]).
  vm_compute. reflexivity.
Defined.

(** X3.  A run panics only on a failed local stat: when the stat of
    every regular file of the tree succeeds, the run ends with status
    0 or through [log.Fatal] with status 1, whatever the target
    answers. *)
Theorem run_without_stat_failure_does_not_panic :
  forall os lfs Rel tree St (T : Target St) root (s : St),
    (forall v, In v (tree root) -> regular v = true ->
               exists localTime, os_Stat lfs (path v) = Ok localTime) ->
    exit (sync os lfs Rel tree T root s) = Exited 0 \/
    exit (sync os lfs Rel tree T root s) = Exited 1.
Proof.
  intros os lfs Rel tree St T root s Hstat.
  destruct (sync_shape os lfs Rel T tree root s) as (r & log & Htr & _ & ->).
  destruct r as [[e |] |]; simpl.
  - destruct (is_not_exist e); auto.
  - auto.
  - exfalso.
    destruct (trace_panic _ _ _ _ _ _ _ Htr eq_refl) as (v & e & Hin & Hreg & He).
    destruct (Hstat v Hin Hreg) as [t Ht]. congruence.
Qed.

(** The theorem on a tree of two files that are both there. *)
Lemma run_without_stat_failure_does_not_panic_witness :
  (forall v, In v fixtures.two_files_tree -> regular v = true ->
             exists localTime,
               os_Stat (fixtures.local_files fixtures.two_files) (path v)
               = Ok localTime) /\
  (exit (fixtures.sync_ftp windows (fixtures.local_files fixtures.two_files)
           "C:\data" fixtures.two_files_tree
           (fixtures.scripted fixtures.no_listing fixtures.accept
              fixtures.denied)) = Exited 0 \/
   exit (fixtures.sync_ftp windows (fixtures.local_files fixtures.two_files)
           "C:\data" fixtures.two_files_tree
           (fixtures.scripted fixtures.no_listing fixtures.accept
              fixtures.denied)) = Exited 1).
Proof.
  assert (Hstat :
    forall v, In v fixtures.two_files_tree -> regular v = true ->
              exists localTime,
                os_Stat (fixtures.local_files fixtures.two_files) (path v)
                = Ok localTime).
  { intros v [<- | [<- | [<- | []]]] Hreg; try discriminate Hreg;
      eexists; reflexivity. }
  split; [exact Hstat |].
  exact (run_without_stat_failure_does_not_panic windows
           (fixtures.local_files fixtures.two_files) fixtures.rel_below
           (fun _ => fixtures.two_files_tree) _
           (ftpFns windows (fixtures.local_files fixtures.two_files)
              (fixtures.scripted fixtures.no_listing fixtures.accept
                 fixtures.denied))
           "C:\data" fixtures.fresh_session Hstat).
Defined.

(** X4.  An error of the walk itself ends the run at the entry that
    carries it: no later entry is looked at, and the run ends through
    [log.Fatal] with status 1, unless the error is a not-exist error,
    in which case the run prints its completion line, releases the
    session and ends with status 0, as a run that synchronized
    everything does. *)
Theorem walk_error_ends_run :
  forall os lfs Rel tree St (T : Target St) root (s s1 : St) pre v post log e,
    tree root = pre ++ v :: post ->
    walk os lfs Rel T root pre (s, []) = (Return None, (s1, log)) ->
    walkErr v = Some e ->
    events (sync os lfs Rel tree T root s) =
      log ++ (if is_not_exist e then [completion; Close] else [LogFatal e]) /\
    exit (sync os lfs Rel tree T root s) =
      (if is_not_exist e then Exited 0 else Exited 1).
Proof.
  intros os lfs Rel tree St T root s s1 pre v post log e Htree Hpre Hv.
  unfold sync, WalkDir. rewrite Htree.
  rewrite (walk_app os lfs Rel T root pre (v :: post) _ _ Hpre).
  simpl. unfold walkFn. rewrite Hv.
  destruct (is_not_exist e); simpl; auto.
Qed.

(** The theorem on a local root that does not exist. *)
Lemma walk_error_ends_run_witness :
  events (sync windows (fixtures.local_files []) fixtures.rel_below
            (fun _ => fixtures.missing_root_tree)
            (ftpFns windows (fixtures.local_files [])
               (fixtures.scripted fixtures.no_listing fixtures.accept
                  fixtures.accept))
            "C:\nowhere" fixtures.fresh_session)
  = [completion; Close] /\
  exit (sync windows (fixtures.local_files []) fixtures.rel_below
          (fun _ => fixtures.missing_root_tree)
          (ftpFns windows (fixtures.local_files [])
             (fixtures.scripted fixtures.no_listing fixtures.accept
                fixtures.accept))
          "C:\nowhere" fixtures.fresh_session)
  = Exited 0.
Proof.
  exact (walk_error_ends_run windows (fixtures.local_files [])
           fixtures.rel_below (fun _ => fixtures.missing_root_tree) _
           (ftpFns windows (fixtures.local_files [])
              (fixtures.scripted fixtures.no_listing fixtures.accept
                 fixtures.accept))
           "C:\nowhere" fixtures.fresh_session fixtures.fresh_session
           [] _ [] [] (PathError "CreateFile" "C:\nowhere" (Errno ENOENT))
           eq_refl eq_refl eq_refl).
Defined.

(* ===================================================================== *)
(** * The FTP target on the wire                                           *)
(* ===================================================================== *)

Lemma str_chars (s : string) : strings.str (strings.chars s) = s.
Proof. apply string_of_list_ascii_of_string. Qed.

Lemma chars_app (a b : string) :
  strings.chars (a +:+ b) = strings.chars a ++ strings.chars b.
Proof.
  induction a as [| ch a IH]; simpl; [reflexivity |].
  unfold strings.chars in *. simpl. rewrite IH. reflexivity.
Qed.

(** The first entry with the name wins. *)
Lemma find_entry_first (base : string) (before after : list ftp.Entry)
    (e : ftp.Entry) :
  ftp.Name e = base ->
  (forall x, In x before -> ftp.Name x <> base) ->
  find_entry base (before ++ e :: after) = (ftp.EntryTime e, None).
Proof.
  intros He. induction before as [| x before IH]; intros Hno; simpl.
  - rewrite He, String.eqb_refl. reflexivity.
  - destruct (String.eqb_spec (ftp.Name x) base) as [Heq | _].
    + exfalso. exact (Hno x (or_introl eq_refl) Heq).
    + apply IH. intros y Hy. apply Hno. right. exact Hy.
Qed.

(** X5.  A timestamp lookup on the FTP target sends exactly one
    command, the listing of the slash-normalized directory of the file
    under the prefix.  Its result is: the error of the listing with
    the zero time, when the listing fails; the time of the first entry
    whose name is exactly the base name of the file, with no error;
    and a not-exist error with the zero time when no entry has that
    name. *)
Theorem ftp_mtime_result :
  forall os S (B : ftp.Server S) (t : ftpTarget S) (rel : string),
    ftp.sent (c (snd (ftp_mtime os B t rel))) =
      ftp.sent (c t)
      ++ [ftp.LIST (filepath.ToSlash os
                      (filepath.Join os (prefix t) (filepath.Dir os rel)))] /\
    prefix (snd (ftp_mtime os B t rel)) = prefix t /\
    (forall err c1,
        ftp.List B (filepath.ToSlash os
                      (filepath.Join os (prefix t) (filepath.Dir os rel))) (c t)
          = (Err err, c1) ->
        fst (ftp_mtime os B t rel) = (time.zero, Some err)) /\
    (forall before e after c1,
        ftp.List B (filepath.ToSlash os
                      (filepath.Join os (prefix t) (filepath.Dir os rel))) (c t)
          = (Ok (before ++ e :: after), c1) ->
        ftp.Name e = filepath.Base os rel ->
        (forall x, In x before -> ftp.Name x <> filepath.Base os rel) ->
        fst (ftp_mtime os B t rel) = (ftp.EntryTime e, None)) /\
    (forall entries c1,
        ftp.List B (filepath.ToSlash os
                      (filepath.Join os (prefix t) (filepath.Dir os rel))) (c t)
          = (Ok entries, c1) ->
        (forall x, In x entries -> ftp.Name x <> filepath.Base os rel) ->
        fst (ftp_mtime os B t rel) = (time.zero, Some ErrNotExist)).
Proof.
  intros os S B t rel.
  set (dir := filepath.ToSlash os
                (filepath.Join os (prefix t) (filepath.Dir os rel))).
  split; [| split; [| split; [| split]]].
  - unfold ftp_mtime, ftp.List. fold dir.
    destruct (ftp.srvList B dir (ftp.srv (c t))) as [[entries | err] s1];
      reflexivity.
  - unfold ftp_mtime. fold dir.
    destruct (ftp.List B dir (c t)) as [[entries | err] c1]; reflexivity.
  - intros err c1 Hl. unfold ftp_mtime. fold dir. rewrite Hl. reflexivity.
  - intros before e after c1 Hl He Hno. unfold ftp_mtime. fold dir.
    rewrite Hl. simpl. apply find_entry_first; assumption.
  - intros entries c1 Hl Hno. unfold ftp_mtime. fold dir. rewrite Hl. simpl.
    apply find_entry_missing. exact Hno.
Qed.

(** The directory loop sends one [MKD] for each element it is given,
    and nothing else. *)
Lemma make_dirs_sent os S (B : ftp.Server S) (dirs : list string) :
  forall p (c0 : ftp.ServerConn S),
    exists mkds,
      ftp.sent (make_dirs os B dirs p c0) = ftp.sent c0 ++ mkds /\
      Forall (fun cmd => is_mkd cmd = true) mkds /\
      length mkds = length dirs.
Proof.
  induction dirs as [| d dirs IH]; intros p c0; simpl.
  - exists []. rewrite app_nil_r. auto.
  - unfold ftp.MakeDir.
    destruct (ftp.srvMakeDir B (filepath.Join os p d) (ftp.srv c0)) as [r s1].
    destruct (IH (filepath.Join os p d)
                 {| ftp.srv := s1;
                    ftp.sent := ftp.sent c0 ++ [ftp.MKD (filepath.Join os p d) r] |})
      as (mkds & Hs & Hall & Hlen).
    exists (ftp.MKD (filepath.Join os p d) r :: mkds). simpl in Hs.
    rewrite Hs, <- app_assoc. simpl. split; [reflexivity |]. split.
    + constructor; [reflexivity | exact Hall].
    + rewrite Hlen. reflexivity.
Qed.


Lemma fields_no_separator (p : ascii -> bool) (l : list ascii) :
  (forall ch, In ch l -> p ch = false) -> strings.fields p l = [l].
Proof.
  induction l as [| ch l IH]; intros Hno; simpl.
  - reflexivity.
  - rewrite (Hno ch (or_introl eq_refl)).
    rewrite IH by (intros x Hx; apply Hno; right; exact Hx). reflexivity.
Qed.

(** A string without the separator splits into itself. *)
Lemma Split_no_separator (s : string) (sep : ascii) :
  (forall ch, In ch (strings.chars s) -> ch <> sep) ->
  strings.Split s sep = [s].
Proof.
  intros Hno. unfold strings.Split. rewrite fields_no_separator.
  - simpl. rewrite str_chars. reflexivity.
  - intros ch Hin. apply Ascii.eqb_neq. intros Heq. exact (Hno ch Hin (eq_sym Heq)).
Qed.

Lemma volumeNameLen_windows (l : list ascii) :
  filepath.volumeNameLen windows l = 0 \/
  exists ch rest,
    l = ch :: ":"%char :: rest /\ filepath.is_letter ch = true /\
    filepath.volumeNameLen windows l = 2.
Proof.
  destruct l as [| ch [| ch2 rest]]; simpl; auto.
  destruct ch2 as [[] [] [] [] [] [] [] []]; simpl; auto.
  destruct (filepath.is_letter ch) eqn:Hl; auto.
  right. exists ch, rest. auto.
Qed.

Lemma replace_removes (a b : ascii) (l : list ascii) (ch : ascii) :
  a <> b -> In ch (filepath.replace a b l) -> ch <> a.
Proof.
  intros Hab Hin. unfold filepath.replace in Hin.
  apply in_map_iff in Hin as (x & Hx & _).
  destruct (Ascii.eqb x a) eqn:Hxa.
  - subst ch. intros Hba. apply Hab. symmetry. exact Hba.
  - subst ch. apply Ascii.eqb_neq. exact Hxa.
Qed.

(** On Windows [Clean] returns no slash. *)
Lemma Clean_windows_no_slash (path : string) (ch : ascii) :
  In ch (strings.chars (filepath.Clean windows path)) -> ch <> "/"%char.
Proof.
  unfold filepath.Clean, filepath.FromSlash. simpl. rewrite chars_str.
  apply replace_removes. discriminate.
Qed.

(** On Windows [Dir] returns no slash. *)
Lemma Dir_windows_no_slash (path : string) (ch : ascii) :
  In ch (strings.chars (filepath.Dir windows path)) -> ch <> "/"%char.
Proof.
  unfold filepath.Dir. rewrite chars_app, chars_str. intros Hin.
  apply in_app_or in Hin as [Hin | Hin].
  - destruct (volumeNameLen_windows (strings.chars path))
      as [H0 | (c0 & rest & Hl & Hletter & H2)].
    + rewrite H0 in Hin. contradiction.
    + rewrite H2, Hl in Hin. simpl in Hin.
      destruct Hin as [<- | [<- | []]].
      * intros ->. discriminate Hletter.
      * discriminate.
  - exact (Clean_windows_no_slash _ _ Hin).
Qed.

(** X7.  On Windows an upload on the FTP target sends at most one
    directory creation, however deep the file lies: the directory of
    the remote path holds no slash once [filepath.Dir] has cleaned it,
    so the split at slashes yields it whole. *)
Theorem windows_upload_sends_at_most_one_mkdir :
  forall lfs S (B : ftp.Server S) (t : ftpTarget S) (local rel : string),
    sent_count is_mkd
      (ftp.sent (c (snd (ftp_upload windows lfs B t local rel)))) <=
    sent_count is_mkd (ftp.sent (c t)) + 1.
Proof.
  intros lfs S B t local rel. unfold ftp_upload.
  set (remote := filepath.ToSlash windows
                   (filepath.Join windows (prefix t) rel)).
  set (dir := filepath.Dir windows remote).
  assert (Hsplit : strings.Split dir "/"%char = [dir])
    by (apply Split_no_separator; intros ch; apply Dir_windows_no_slash).
  assert (Hc1 :
    sent_count is_mkd
      (ftp.sent (if negb (String.eqb dir "") && negb (String.eqb dir ".")
                 then make_dirs windows B (strings.Split dir "/"%char) "" (c t)
                 else c t)) <= sent_count is_mkd (ftp.sent (c t)) + 1).
  { destruct (negb (String.eqb dir "") && negb (String.eqb dir ".")).
    - rewrite Hsplit. simpl. unfold ftp.MakeDir.
      destruct (ftp.srvMakeDir B _ (ftp.srv (c t))) as [r s1]. simpl.
      unfold sent_count. rewrite List.filter_app, length_app. simpl. lia.
    - lia. }
  destruct (os_Open lfs local) as [src | err].
  - unfold ftp.Stor. destruct (ftp.srvStor B remote src _) as [r s1]. simpl.
    unfold sent_count in *. rewrite List.filter_app, length_app. simpl. lia.
  - simpl. exact Hc1.
Qed.

(** What holds before a walk and is kept by every call of the walk
    function holds after the walk. *)
Lemma walk_preserves os lfs Rel St (T : Target St) (root : string)
    (J : St * list event -> Prop) :
  (forall v w, J w -> J (snd (walkFn os lfs Rel T root v w))) ->
  forall vs w, J w -> J (snd (walk os lfs Rel T root vs w)).
Proof.
  intros Hstep. induction vs as [| v vs IH]; intros w Hw; simpl.
  - exact Hw.
  - specialize (Hstep v w Hw).
    destruct (walkFn os lfs Rel T root v w) as [[[e |] |] w']; simpl in *.
    + exact Hstep.
    + apply IH. exact Hstep.
    + exact Hstep.
Qed.

Lemma sent_count_app (p : ftp.Command -> bool) (l1 l2 : list ftp.Command) :
  sent_count p (l1 ++ l2) = sent_count p l1 + sent_count p l2.
Proof. unfold sent_count. rewrite List.filter_app, length_app. reflexivity. Qed.

Lemma sent_count_mkds (p : ftp.Command -> bool) (mkds : list ftp.Command) :
  (forall path reply, p (ftp.MKD path reply) = false) ->
  Forall (fun cmd => is_mkd cmd = true) mkds ->
  sent_count p mkds = 0.
Proof.
  intros Hp. induction 1 as [| cmd mkds Hcmd Hall IH]; [reflexivity |].
  destruct cmd; try discriminate Hcmd.
  unfold sent_count in *. simpl. rewrite Hp. exact IH.
Qed.

Lemma ftp_mtime_sent os S (B : ftp.Server S) (t : ftpTarget S) (rel : string) :
  ftp.sent (c (snd (ftp_mtime os B t rel))) =
  ftp.sent (c t)
  ++ [ftp.LIST (filepath.ToSlash os
                  (filepath.Join os (prefix t) (filepath.Dir os rel)))].
Proof.
  unfold ftp_mtime, ftp.List.
  destruct (ftp.srvList B _ (ftp.srv (c t))) as [[entries | err] s1];
    reflexivity.
Qed.

Lemma ftp_upload_sent os lfs S (B : ftp.Server S) (t : ftpTarget S)
    (local rel : string) :
  exists new,
    ftp.sent (c (snd (ftp_upload os lfs B t local rel))) = ftp.sent (c t) ++ new /\
    sent_count is_list new = 0 /\
    sent_count is_quit new = 0 /\
    sent_count is_stor new <= 1 /\
    Forall (wire_normalized os) new.
Proof.
  unfold ftp_upload.
  set (remote := filepath.ToSlash os (filepath.Join os (prefix t) rel)).
  set (dir := filepath.Dir os remote).
  assert (Hc1 : exists mkds,
    ftp.sent (if negb (String.eqb dir "") && negb (String.eqb dir ".")
              then make_dirs os B (strings.Split dir "/"%char) "" (c t)
              else c t) = ftp.sent (c t) ++ mkds /\
    Forall (fun cmd => is_mkd cmd = true) mkds).
  { destruct (negb (String.eqb dir "") && negb (String.eqb dir ".")).
    - destruct (make_dirs_sent os S B (strings.Split dir "/"%char) "" (c t))
        as (mkds & Hs & Hall & _).
      exists mkds. auto.
    - exists []. rewrite app_nil_r. auto. }
  destruct Hc1 as (mkds & Hs & Hall).
  assert (Hnorm : Forall (wire_normalized os) mkds).
  { clear Hs. induction Hall as [| cmd mkds Hcmd Hall IH]; constructor.
    - destruct cmd; try discriminate Hcmd. exact I.
    - exact IH. }
  destruct (os_Open lfs local) as [src | err].
  - unfold ftp.Stor. destruct (ftp.srvStor B remote src _) as [r s1]. simpl.
    exists (mkds ++ [ftp.STOR remote src r]).
    rewrite Hs, <- app_assoc, !sent_count_app.
    rewrite (sent_count_mkds is_list mkds), (sent_count_mkds is_quit mkds),
      (sent_count_mkds is_stor mkds) by (exact Hall || reflexivity).
    split; [reflexivity |]. split; [reflexivity |]. split; [reflexivity |].
    split; [unfold sent_count; simpl; lia |].
    apply Forall_app. split; [exact Hnorm |].
    constructor; [| constructor]. apply ToSlash_normalized.
  - simpl. exists mkds. rewrite Hs.
    rewrite (sent_count_mkds is_list mkds), (sent_count_mkds is_quit mkds),
      (sent_count_mkds is_stor mkds) by (exact Hall || reflexivity).
    split; [reflexivity |]. split; [reflexivity |].
    split; [reflexivity |]. split; [lia | exact Hnorm].
Qed.

(** X8.  In a run on the FTP target, on every host: the commands sent
    during the walk are one listing for each timestamp lookup and at
    most one store for each upload attempt, besides the directory
    creations; the path of every listing and of every store is
    slash-normalized; and the connection is closed by one [QUIT], the
    last command, exactly when the run does not leave through
    [log.Fatal]. *)
Theorem ftp_run_on_the_wire :
  forall os lfs Rel tree S (B : ftp.Server S) root (t0 : ftpTarget S),
    exists new,
      ftp.sent (c (final (sync os lfs Rel tree (ftpFns os lfs B) root t0))) =
        ftp.sent (c t0) ++ new /\
      sent_count is_list new =
        count is_lookup (events (sync os lfs Rel tree (ftpFns os lfs B) root t0)) /\
      sent_count is_stor new <=
        count is_upload (events (sync os lfs Rel tree (ftpFns os lfs B) root t0)) /\
      Forall (wire_normalized os) new /\
      sent_count is_quit new =
        count is_close (events (sync os lfs Rel tree (ftpFns os lfs B) root t0)) /\
      (forall before after, new = before ++ ftp.QUIT :: after -> after = []).
Proof.
  intros os lfs Rel tree S B root t0.
  set (J := fun w : ftpTarget S * list event =>
    exists new,
      ftp.sent (c (fst w)) = ftp.sent (c t0) ++ new /\
      sent_count is_list new = count is_lookup (snd w) /\
      sent_count is_stor new <= count is_upload (snd w) /\
      Forall (wire_normalized os) new /\
      sent_count is_quit new = 0 /\
      count is_close (snd w) = 0).
  assert (Hstep : forall v w, J w ->
            J (snd (walkFn os lfs Rel (ftpFns os lfs B) root v w))).
  { unfold J. intros v [t log] (new & Hs & Hl & Hu & Hn & Hq & Hc). simpl in *.
    unfold walkFn.
    destruct (walkErr v); [exists new; simpl; repeat split; assumption |].
    destruct (d_IsDir v); [exists new; simpl; repeat split; assumption |].
    simpl.
    set (rel := filepath.ToSlash os (fst (Rel root (path v)))).
    pose proof (ftp_mtime_sent os S B t rel) as Hm.
    destruct (ftp_mtime os B t rel) as [[tm err] t1]. simpl in Hm.
    assert (J1 :
      exists new1,
        ftp.sent (c t1) = ftp.sent (c t0) ++ new1 /\
        sent_count is_list new1 = count is_lookup (log ++ [GetMTime rel tm err]) /\
        sent_count is_stor new1 <= count is_upload (log ++ [GetMTime rel tm err]) /\
        Forall (wire_normalized os) new1 /\
        sent_count is_quit new1 = 0 /\
        count is_close (log ++ [GetMTime rel tm err]) = 0).
    { exists (new ++ [ftp.LIST (filepath.ToSlash os
                (filepath.Join os (prefix t) (filepath.Dir os rel)))]).
      rewrite Hm, Hs, <- app_assoc, !sent_count_app, !count_app.
      split; [reflexivity |].
      split; [unfold sent_count, count in *; simpl; lia |].
      split; [unfold sent_count, count in *; simpl; lia |].
      split; [| split; unfold sent_count, count in *; simpl; lia].
      apply Forall_app. split; [exact Hn |].
      constructor; [simpl; apply ToSlash_normalized | constructor]. }
    destruct (os_Stat lfs (path v)) as [localTime | e]; [| exact J1].
    destruct (newer localTime tm); [| exact J1].
    destruct J1 as (new1 & Hs1 & Hl1 & Hu1 & Hn1 & Hq1 & Hc1).
    destruct (ftp_upload_sent os lfs S B t1 (path v) rel)
      as (new2 & Hs2 & Hl2 & Hq2 & Hu2 & Hn2).
    destruct (ftp_upload os lfs B t1 (path v) rel) as [r t2]. simpl in *.
    exists (new1 ++ new2).
    rewrite Hs2, Hs1, <- app_assoc, !sent_count_app, !count_app.
    rewrite !count_app in Hl1, Hu1, Hc1.
    split; [reflexivity |].
    split; [unfold sent_count, count in *; simpl in *; lia |].
    split; [unfold sent_count, count in *; simpl in *; lia |].
    split; [apply Forall_app; split; assumption |].
    split; unfold sent_count, count in *; simpl in *; lia. }
  assert (J0 : J (t0, [])).
  { unfold J. exists []. simpl. rewrite app_nil_r.
    repeat split; try reflexivity. constructor. }
  pose proof (walk_preserves os lfs Rel _ (ftpFns os lfs B) root J Hstep
                (tree root) (t0, []) J0) as Hend.
  unfold sync, WalkDir.
  destruct (walk os lfs Rel (ftpFns os lfs B) root (tree root) (t0, []))
    as [r [t1 log]].
  unfold J in Hend.
  destruct Hend as (new & Hs & Hl & Hu & Hn & Hq & Hc). simpl in Hs, Hl, Hu, Hc.
  assert (Hfatal : forall e : error,
    ftp.sent (c t1) = ftp.sent (c t0) ++ new /\
    sent_count is_list new = count is_lookup (log ++ [LogFatal e]) /\
    sent_count is_stor new <= count is_upload (log ++ [LogFatal e]) /\
    Forall (wire_normalized os) new /\
    sent_count is_quit new = count is_close (log ++ [LogFatal e]) /\
    (forall before after, new = before ++ ftp.QUIT :: after -> after = [])).
  { intros e. rewrite !count_app.
    split; [exact Hs |].
    split; [unfold count in *; simpl; lia |].
    split; [unfold count in *; simpl; lia |].
    split; [exact Hn |].
    split; [unfold count in *; simpl; lia |].
    intros before after Heq. exfalso. rewrite Heq in Hq.
    rewrite sent_count_app in Hq. unfold sent_count in Hq. simpl in Hq. lia. }
  assert (Hclosed : forall tail : list event,
    count is_lookup tail = 0 -> count is_upload tail = 0 ->
    count is_close tail = 1 ->
    ftp.sent (c (ftp_close B t1)) = ftp.sent (c t0) ++ (new ++ [ftp.QUIT]) /\
    sent_count is_list (new ++ [ftp.QUIT]) = count is_lookup (log ++ tail) /\
    sent_count is_stor (new ++ [ftp.QUIT]) <= count is_upload (log ++ tail) /\
    Forall (wire_normalized os) (new ++ [ftp.QUIT]) /\
    sent_count is_quit (new ++ [ftp.QUIT]) = count is_close (log ++ tail) /\
    (forall before after,
        new ++ [ftp.QUIT] = before ++ ftp.QUIT :: after -> after = [])).
  { intros tail Ht1 Ht2 Ht3. unfold ftp_close, ftp.Quit.
    destruct (ftp.srvQuit B (ftp.srv (c t1))) as [rq s1]. simpl.
    rewrite Hs, <- app_assoc, !sent_count_app, !count_app.
    split; [reflexivity |].
    split; [unfold sent_count in *; simpl; lia |].
    split; [unfold sent_count in *; simpl; lia |].
    split; [apply Forall_app; split;
            [exact Hn | constructor; [exact I | constructor]] |].
    split; [unfold sent_count in *; simpl; lia |].
    intros before after Heq.
    destruct after as [| x after]; [reflexivity | exfalso].
    assert (Hcnt : sent_count is_quit (new ++ [ftp.QUIT]) =
                   sent_count is_quit (before ++ ftp.QUIT :: x :: after))
      by (rewrite Heq; reflexivity).
    assert (Hlen : length (new ++ [ftp.QUIT]) =
                   length (before ++ ftp.QUIT :: x :: after))
      by (rewrite Heq; reflexivity).
    assert (Hx : exists mid, new = before ++ ftp.QUIT :: mid).
    { clear - Heq. revert new Heq.
      induction before as [| a before IH]; intros new Heq.
      - destruct new as [| b new]; simpl in Heq.
        + discriminate Heq.
        + injection Heq as -> _. exists new. reflexivity.
      - destruct new as [| b new]; simpl in Heq.
        + injection Heq as _ Heq. destruct before; discriminate Heq.
        + injection Heq as -> Heq. destruct (IH _ Heq) as [mid ->].
          exists mid. reflexivity. }
    destruct Hx as [mid ->].
    rewrite sent_count_app in Hq. unfold sent_count in Hq. simpl in Hq. lia. }
  destruct r as [[e |] |].
  - destruct (is_not_exist e); simpl.
    + exists (new ++ [ftp.QUIT]). apply Hclosed; reflexivity.
    + exists new. apply Hfatal.
  - simpl. exists (new ++ [ftp.QUIT]). apply Hclosed; reflexivity.
  - simpl. exists (new ++ [ftp.QUIT]). apply Hclosed; reflexivity.
Qed.

(* ===================================================================== *)
(** * Start of the run                                                     *)
(* ===================================================================== *)





(** On Windows, what is joined to a drive stays on the drive. *)
Lemma Join_drive_Z (x : string) :
  exists rest, filepath.Join windows "Z:" x = String "Z" (String ":" rest).
Proof.
  unfold filepath.Join. simpl.
  unfold filepath.Clean, filepath.FromSlash. simpl. rewrite chars_str.
  unfold filepath.clean_chars. simpl.
  destruct (strings.chars x) as [| ch l]; simpl; eexists; reflexivity.
Qed.

(** X11.  On Windows every path the SMB target works on lies on the
    mounted drive: for a target returned by [connectSMB], the path of
    any relative path begins with [Z:]. *)
Theorem toRemote_on_mounted_drive :
  forall (net : list string -> string * option error) (cfg : SMBConf)
         (st : smbTarget) (rel : string),
    connectSMB net cfg = Ok st ->
    exists rest, toRemote windows st rel = String "Z" (String ":" rest).
Proof.
  intros net cfg st rel Hc.
  assert (Hd : drive st = "Z:").
  { unfold connectSMB in Hc. destruct (net _) as [out [err |]].
    - discriminate Hc.
    - injection Hc as <-. reflexivity. }
  unfold toRemote. rewrite Hd. apply Join_drive_Z.
Qed.

(** The theorem on the share of the configuration used in the runs. *)
Lemma toRemote_on_mounted_drive_witness :
  connectSMB fixtures.net_ok (SMB (fixtures.smb_conf "C:\data"))
    = Ok fixtures.mounted /\
  exists rest,
    toRemote windows fixtures.mounted "a/b/c.txt" = String "Z" (String ":" rest).
Proof.
  split; [reflexivity |].
  exact (toRemote_on_mounted_drive fixtures.net_ok
           (SMB (fixtures.smb_conf "C:\data")) fixtures.mounted "a/b/c.txt"
           eq_refl).
Defined.

(* ===================================================================== *)
(** * More on the write on the mounted share                               *)
(* ===================================================================== *)

(** X12.  An upload to the share touches two paths only, the
    destination and the temporary file next to it: whatever the upload
    returns, every other file of the share is as it was. *)
Theorem smb_upload_touches_two_paths :
  forall os lfs (F : smb.Faults) now (st : smbTarget) (local rel : string)
         (d : smb.Disk) (p : string),
    p <> toRemote os st rel ->
    p <> toRemote os st rel +:+ ".tmp" ->
    snd (smb_upload os lfs F now st local rel d) !! p = d !! p.
Proof.
  intros os lfs F now st local rel d p Hdst Htmp.
  unfold smb_upload. simpl.
  set (dst := toRemote os st rel) in *.
  destruct (os_Open lfs local) as [src | err]; [| reflexivity].
  unfold smb.Create.
  destruct (smb.create_fault F (dst +:+ ".tmp")); [reflexivity |].
  unfold smb.Copy.
  destruct (smb.copy_fault F (dst +:+ ".tmp")) as [[n ex] |]; simpl.
  { rewrite !lookup_insert_ne by (intros Heq; apply Htmp; symmetry; exact Heq).
    reflexivity. }
  unfold smb.Rename.
  destruct (smb.rename_fault F (dst +:+ ".tmp") dst); simpl.
  { rewrite !lookup_insert_ne by (intros Heq; apply Htmp; symmetry; exact Heq).
    reflexivity. }
  rewrite lookup_insert_eq. simpl.
  rewrite lookup_insert_ne by (intros Heq; apply Hdst; symmetry; exact Heq).
  rewrite lookup_delete_ne by (intros Heq; apply Htmp; symmetry; exact Heq).
  rewrite !lookup_insert_ne by (intros Heq; apply Htmp; symmetry; exact Heq).
  reflexivity.
Qed.

(** The theorem on an upload next to another file of the share. *)
Lemma smb_upload_touches_two_paths_witness :
  "Z:a.txt" <> toRemote windows fixtures.mounted "b.txt" /\
  "Z:a.txt" <> toRemote windows fixtures.mounted "b.txt" +:+ ".tmp" /\
  snd (smb_upload windows (fixtures.local_files fixtures.two_files)
         fixtures.no_faults (fixtures.at_second 500) fixtures.mounted
         "C:\data\b.txt" "b.txt" fixtures.old_share) !! "Z:a.txt"
  = fixtures.old_share !! "Z:a.txt".
Proof.
  assert (H1 : "Z:a.txt" <> toRemote windows fixtures.mounted "b.txt")
    by (vm_compute; discriminate).
  assert (H2 : "Z:a.txt" <> toRemote windows fixtures.mounted "b.txt" +:+ ".tmp")
    by (vm_compute; discriminate).
  split; [exact H1 |]. split; [exact H2 |].
  exact (smb_upload_touches_two_paths windows
           (fixtures.local_files fixtures.two_files) fixtures.no_faults
           (fixtures.at_second 500) fixtures.mounted "C:\data\b.txt" "b.txt"
           fixtures.old_share "Z:a.txt" H1 H2).
Defined.

(** After an upload that returned no error the destination is the file
    written at the time of the upload. *)
Lemma smb_upload_done os lfs (F : smb.Faults) now (st : smbTarget)
    (local rel : string) (d d' : smb.Disk) :
  smb_upload os lfs F now st local rel d = (None, d') ->
  exists src,
    d' !! toRemote os st rel = Some {| smb.data := src; smb.modtime := now |}.
Proof.
  unfold smb_upload. simpl.
  set (dst := toRemote os st rel).
  destruct (os_Open lfs local) as [src | err]; [| discriminate].
  unfold smb.Create.
  destruct (smb.create_fault F (dst +:+ ".tmp")); [discriminate |].
  unfold smb.Copy.
  destruct (smb.copy_fault F (dst +:+ ".tmp")) as [[n ex] |]; [discriminate |].
  simpl. unfold smb.Rename.
  destruct (smb.rename_fault F (dst +:+ ".tmp") dst); [discriminate |].
  rewrite lookup_insert_eq. intros H. injection H as <-.
  exists src. apply lookup_insert_eq.
Qed.

(** X13.  The lookup after an upload: once an upload to the share has
    returned no error, the timestamp lookup of the same relative path
    (when its stat goes through) returns the time of the upload, not
    the modification time of the local file, and leaves the share as
    it is; so at the next visit of the file the walk function uploads
    nothing unless the local file is newer than that upload. *)
Theorem smb_lookup_after_upload :
  forall os lfs (F : smb.Faults) now net (st : smbTarget) (local rel : string)
         (d d' : smb.Disk),
    smb_upload os lfs F now st local rel d = (None, d') ->
    smb.stat_fault F (toRemote os st rel) = None ->
    smb_mtime os F st rel d' = ((now, None), d') /\
    (forall Rel root v log localTime,
        regular v = true ->
        rel_of os Rel root v = rel ->
        os_Stat lfs (path v) = Ok localTime ->
        now <> time.zero ->
        time.le localTime now ->
        walkFn os lfs Rel (smbFns os lfs F now net st) root v (d', log)
        = (Return None, (d', log ++ [GetMTime rel now None]))).
Proof.
  intros os lfs F now net st local rel d d' Hup Hstat.
  destruct (smb_upload_done _ _ _ _ _ _ _ _ _ Hup) as [src Hdst].
  assert (Hm : smb_mtime os F st rel d' = ((now, None), d')).
  { unfold smb_mtime, smb.Stat. rewrite Hstat, Hdst. reflexivity. }
  split; [exact Hm |].
  intros Rel root v log localTime Hreg Hrel Hs Hz Hle.
  apply regular_inv in Hreg as [Hw Hd].
  unfold walkFn. rewrite Hw, Hd. simpl. fold (rel_of os Rel root v).
  rewrite Hrel, Hm, Hs, (newer_false_of_le _ _ Hz Hle). reflexivity.
Qed.

(** The theorem on the upload of [a.txt] to an empty share at second
    500, and the next visit of the file, last modified at second 100. *)
Lemma smb_lookup_after_upload_witness :
  smb_upload windows (fixtures.local_files fixtures.one_file)
    fixtures.no_faults (fixtures.at_second 500) fixtures.mounted
    "C:\data\a.txt" "a.txt" ∅
  = (None, {[ "Z:a.txt" := {| smb.data := "alpha";
                              smb.modtime := fixtures.at_second 500 |} ]}) /\
  walkFn windows (fixtures.local_files fixtures.one_file) fixtures.rel_below
    (smbFns windows (fixtures.local_files fixtures.one_file)
       fixtures.no_faults (fixtures.at_second 500) fixtures.net_ok
       fixtures.mounted)
    "C:\data" (fixtures.file "C:\data\a.txt")
    ({[ "Z:a.txt" := {| smb.data := "alpha";
                        smb.modtime := fixtures.at_second 500 |} ]}, [])
  = (Return None,
     ({[ "Z:a.txt" := {| smb.data := "alpha";
                         smb.modtime := fixtures.at_second 500 |} ]},
      [GetMTime "a.txt" (fixtures.at_second 500) None])).
Proof.
  assert (Hup :
    smb_upload windows (fixtures.local_files fixtures.one_file)
      fixtures.no_faults (fixtures.at_second 500) fixtures.mounted
      "C:\data\a.txt" "a.txt" ∅
    = (None, {[ "Z:a.txt" := {| smb.data := "alpha";
                                smb.modtime := fixtures.at_second 500 |} ]})).
  { unfold smb_upload. simpl. unfold smb.Create, smb.Copy, smb.Rename. simpl.
    rewrite lookup_insert_eq, insert_insert_eq, delete_insert_eq.
    rewrite delete_empty. reflexivity. }
  split; [exact Hup |].
  destruct (smb_lookup_after_upload windows
              (fixtures.local_files fixtures.one_file) fixtures.no_faults
              (fixtures.at_second 500) fixtures.net_ok fixtures.mounted
              "C:\data\a.txt" "a.txt" ∅ _ Hup eq_refl) as [_ Hnext].
  apply (Hnext fixtures.rel_below "C:\data" (fixtures.file "C:\data\a.txt") []
           (fixtures.at_second 100)).
  - reflexivity.
  - reflexivity.
  - reflexivity.
  - discriminate.
  - left. reflexivity.
Defined.

(** X14.  A failed upload to the share does not clean up: when the
    local file was opened and the temporary file created, an upload
    that returns an error leaves the temporary file on the share; after
    a copy that broke, that file holds the bytes written before the
    break. *)
Theorem smb_failed_upload_leaves_temporary_file :
  forall os lfs (F : smb.Faults) now (st : smbTarget) (local rel : string)
         (d d' : smb.Disk) src e,
    smb_upload os lfs F now st local rel d = (Some e, d') ->
    os_Open lfs local = Ok src ->
    smb.create_fault F (toRemote os st rel +:+ ".tmp") = None ->
    is_Some (d' !! (toRemote os st rel +:+ ".tmp")) /\
    (forall n ex,
        smb.copy_fault F (toRemote os st rel +:+ ".tmp") = Some (n, ex) ->
        e = ex /\
        d' !! (toRemote os st rel +:+ ".tmp")
        = Some {| smb.data := String.substring 0 n src; smb.modtime := now |}).
Proof.
  intros os lfs F now st local rel d d' src e.
  unfold smb_upload. simpl.
  set (dst := toRemote os st rel).
  intros Hup Hopen Hcreate. rewrite Hopen in Hup.
  unfold smb.Create in Hup. rewrite Hcreate in Hup.
  unfold smb.Copy in Hup.
  destruct (smb.copy_fault F (dst +:+ ".tmp")) as [[n0 ex0] |]; simpl in Hup.
  - injection Hup as <- <-. split.
    + rewrite lookup_insert_eq. eexists. reflexivity.
    + intros n ex H. injection H as <- <-. split; [reflexivity |].
      apply lookup_insert_eq.
  - unfold smb.Rename in Hup.
    destruct (smb.rename_fault F (dst +:+ ".tmp") dst).
    + injection Hup as _ <-. split.
      * rewrite lookup_insert_eq. eexists. reflexivity.
      * intros n ex H. discriminate H.
    + rewrite lookup_insert_eq in Hup. discriminate Hup.
Qed.

(** The theorem on a copy that breaks after two bytes. *)
Lemma smb_failed_upload_leaves_temporary_file_witness :
  smb_upload windows (fixtures.local_files fixtures.one_file)
    fixtures.drops_after_two (fixtures.at_second 500) fixtures.mounted
    "C:\data\a.txt" "a.txt" ∅
  = (Some (Errno EIO),
     {[ "Z:a.txt.tmp" := {| smb.data := "al";
                            smb.modtime := fixtures.at_second 500 |} ]}) /\
  is_Some (({[ "Z:a.txt.tmp" := {| smb.data := "al";
                                   smb.modtime := fixtures.at_second 500 |} ]}
            : smb.Disk) !! (toRemote windows fixtures.mounted "a.txt" +:+ ".tmp")).
Proof.
  assert (Hup :
    smb_upload windows (fixtures.local_files fixtures.one_file)
      fixtures.drops_after_two (fixtures.at_second 500) fixtures.mounted
      "C:\data\a.txt" "a.txt" ∅
    = (Some (Errno EIO),
       {[ "Z:a.txt.tmp" := {| smb.data := "al";
                              smb.modtime := fixtures.at_second 500 |} ]})).
  { unfold smb_upload. simpl. unfold smb.Create, smb.Copy. simpl.
    rewrite insert_insert_eq. reflexivity. }
  split; [exact Hup |].
  exact (proj1 (smb_failed_upload_leaves_temporary_file windows
                  (fixtures.local_files fixtures.one_file)
                  fixtures.drops_after_two (fixtures.at_second 500)
                  fixtures.mounted "C:\data\a.txt" "a.txt" ∅ _ "alpha"
                  (Errno EIO) Hup eq_refl eq_refl)).
Defined.

(* ===================================================================== *)
(** * What the run hands to its target                                     *)
(* ===================================================================== *)

(** The calls of a walk are made for regular entries of the tree. *)
Lemma trace_calls_for_files os lfs Rel (root : string) vs r evs :
  walk_trace os lfs Rel root vs r evs ->
  forall e rl,
    In e evs -> handed e = Some rl ->
    exists v,
      In v vs /\ regular v = true /\ rl = rel_of os Rel root v /\
      (forall p rl' err, e = PutFile p rl' err -> p = path v).
Proof.
  induction 1 as [| v vs e1 Hw | v vs r evs Hw Hd Htr IH | v vs t err e1 Hr Hs
                 | v vs l t err r evs Hr Hs Hn Htr IH
                 | v vs l t err r evs Hr Hs Hn Htr IH | v vs l t err e0 Hr Hs Hn];
    intros e rl Hin Hh; simpl in Hin.
  - contradiction.
  - contradiction.
  - destruct (IH _ _ Hin Hh) as (v' & Hv & H'). exists v'. simpl. auto.
  - destruct Hin as [<- | []]. simpl in Hh. injection Hh as <-.
    exists v. simpl. repeat split; auto. intros p rl' err' H. discriminate H.
  - destruct Hin as [<- | Hin].
    + simpl in Hh. injection Hh as <-. exists v. simpl. repeat split; auto.
      intros p rl' err' H. discriminate H.
    + destruct (IH _ _ Hin Hh) as (v' & Hv & H'). exists v'. simpl. auto.
  - destruct Hin as [<- | [<- | [<- | Hin]]].
    + simpl in Hh. injection Hh as <-. exists v. simpl. repeat split; auto.
      intros p rl' err' H. discriminate H.
    + discriminate Hh.
    + simpl in Hh. injection Hh as <-. exists v. simpl. repeat split; auto.
      intros p rl' err' H. injection H as <- _ _. reflexivity.
    + destruct (IH _ _ Hin Hh) as (v' & Hv & H'). exists v'. simpl. auto.
  - destruct Hin as [<- | [<- | [<- | []]]].
    + simpl in Hh. injection Hh as <-. exists v. simpl. repeat split; auto.
      intros p rl' err' H. discriminate H.
    + discriminate Hh.
    + simpl in Hh. injection Hh as <-. exists v. simpl. repeat split; auto.
      intros p rl' err' H. injection H as <- _ _. reflexivity.
Qed.

Lemma ending_hands_nothing (r : flow (option error)) (e : event) :
  In e (fst (ending r)) -> handed e = None.
Proof.
  destruct r as [[e0 |] |]; simpl; [destruct (is_not_exist e0); simpl | |];
    unfold completion; intros Hin;
    repeat (destruct Hin as [<- | Hin]; [reflexivity |]); contradiction.
Qed.

(** X15.  Directories are never synchronized as such: every timestamp
    lookup and every upload of a run is made for an entry of the tree
    that is not a directory and was read without error, with the
    slash form of its path relative to the root; an upload is given
    the path of that same entry as its local file. *)
Theorem calls_only_for_regular_files :
  forall os lfs Rel tree St (T : Target St) root (s : St) e rl,
    In e (events (sync os lfs Rel tree T root s)) ->
    handed e = Some rl ->
    exists v,
      In v (tree root) /\
      walkErr v = None /\ d_IsDir v = false /\
      rl = filepath.ToSlash os (fst (Rel root (path v))) /\
      (forall p rl' err, e = PutFile p rl' err -> p = path v).
Proof.
  intros os lfs Rel tree St T root s e rl Hin Hh.
  destruct (sync_shape os lfs Rel T tree root s) as (r & log & Htr & Hev & _).
  rewrite Hev in Hin. apply in_app_or in Hin as [Hin | Hin].
  - destruct (trace_calls_for_files _ _ _ _ _ _ _ Htr _ _ Hin Hh)
      as (v & Hv & Hreg & Hrl & Hp).
    apply regular_inv in Hreg as [Hw Hd]. exists v. auto.
  - rewrite (ending_hands_nothing _ _ Hin) in Hh. discriminate Hh.
Qed.

(** The theorem on the upload of the nested file. *)
Lemma calls_only_for_regular_files_witness :
  In (PutFile "C:\data\a\b\c.txt" "a/b/c.txt" None)
     (events (fixtures.sync_ftp windows (fixtures.local_files fixtures.nested)
                "C:\data" fixtures.nested_tree
                (fixtures.scripted fixtures.no_listing fixtures.accept
                   fixtures.accept))) /\
  exists v,
    In v fixtures.nested_tree /\
    walkErr v = None /\ d_IsDir v = false /\
    "a/b/c.txt" = filepath.ToSlash windows
                    (fst (fixtures.rel_below "C:\data" (path v))) /\
    (forall p rl' err,
        PutFile "C:\data\a\b\c.txt" "a/b/c.txt" None = PutFile p rl' err ->
        p = path v).
Proof.
  assert (Hin :
    In (PutFile "C:\data\a\b\c.txt" "a/b/c.txt" None)
       (events (fixtures.sync_ftp windows (fixtures.local_files fixtures.nested)
                  "C:\data" fixtures.nested_tree
                  (fixtures.scripted fixtures.no_listing fixtures.accept
                     fixtures.accept))))
    by (vm_compute; tauto).
  split; [exact Hin |].
  exact (calls_only_for_regular_files windows
           (fixtures.local_files fixtures.nested) fixtures.rel_below
           (fun _ => fixtures.nested_tree) _
           (ftpFns windows (fixtures.local_files fixtures.nested)
              (fixtures.scripted fixtures.no_listing fixtures.accept
                 fixtures.accept))
           "C:\data" fixtures.fresh_session _ "a/b/c.txt" Hin eq_refl).
Defined.

(** X16.  Whatever the host and the target, every relative path that
    [main] hands to the timestamp lookup or to the upload holds no
    separator of the host other than the slash; a run that ends
    before it has a session hands nothing. *)
Theorem main_hands_normalized_paths :
  forall os lfs Rel tree S (B : ftp.Server S) ftp_Dial ftp_Login F now net
         share loadConf flag e rl,
    In e (events (main os lfs Rel tree B ftp_Dial ftp_Login F now net share
                    loadConf flag)) ->
    handed e = Some rl ->
    slash_normalized os rl /\
    final (main os lfs Rel tree B ftp_Dial ftp_Login F now net share
             loadConf flag) <> NoSession.
Proof.
  intros os lfs Rel tree S B ftp_Dial ftp_Login F now net share loadConf flag
         e rl.
  unfold main.
  assert (Hfatal : forall err : error,
            In e (events (fatal (S := S) err)) -> handed e = Some rl -> False).
  { intros err [<- | []] Hh. discriminate Hh. }
  destruct (loadConf (default "dataxfer.conf" flag)) as [conf | e0];
    [| intros Hin Hh; exfalso; exact (Hfatal _ Hin Hh)].
  destruct (String.eqb (strings.ToLower (Type_ conf)) "ftp").
  - destruct (connectFTP ftp_Dial ftp_Login (FTP conf)) as [ft | e1];
      [| intros Hin Hh; exfalso; exact (Hfatal _ Hin Hh)].
    simpl. intros Hin Hh. split; [| discriminate].
    exact (sync_handed_normalized _ _ _ _ _ _ _ _ _ _ Hin Hh).
  - destruct (String.eqb (strings.ToLower (Type_ conf)) "smb");
      [| intros Hin Hh; exfalso; exact (Hfatal _ Hin Hh)].
    destruct (connectSMB net (SMB conf)) as [st | e1];
      [| intros Hin Hh; exfalso; exact (Hfatal _ Hin Hh)].
    simpl. intros Hin Hh. split; [| discriminate].
    exact (sync_handed_normalized _ _ _ _ _ _ _ _ _ _ Hin Hh).
Qed.

(** The theorem on the run that uploads the nested file. *)
Lemma main_hands_normalized_paths_witness :
  In (GetMTime "a/b/c.txt" time.zero (Some ErrNotExist))
     (events (fixtures.run_ftp windows (fixtures.local_files fixtures.nested)
                "C:\data" fixtures.nested_tree
                (fixtures.scripted fixtures.no_listing fixtures.accept
                   fixtures.accept))) /\
  slash_normalized windows "a/b/c.txt".
Proof.
  assert (Hin :
    In (GetMTime "a/b/c.txt" time.zero (Some ErrNotExist))
       (events (fixtures.run_ftp windows (fixtures.local_files fixtures.nested)
                  "C:\data" fixtures.nested_tree
                  (fixtures.scripted fixtures.no_listing fixtures.accept
                     fixtures.accept))))
    by (vm_compute; tauto).
  split; [exact Hin |].
  exact (proj1 (main_hands_normalized_paths windows
                  (fixtures.local_files fixtures.nested) fixtures.rel_below
                  (fun _ => fixtures.nested_tree) _
                  (fixtures.scripted fixtures.no_listing fixtures.accept
                     fixtures.accept)
                  fixtures.dial_ok fixtures.login_ok fixtures.no_faults
                  (fixtures.at_second 0) fixtures.net_ok ∅
                  (fun _ => Ok (fixtures.ftp_conf "C:\data")) None
                  _ "a/b/c.txt" Hin eq_refl)).
Defined.
